(** * tsh: a tiny shell with job control

    Shallow embedding of the job table, the [bg]/[fg] builtin, the foreground
    wait, the [SIGCHLD] handler and the command-line tokenizer of [tsh.c].

    - C [int]/[pid_t] values are [Z]; the only arithmetic on them ([nextjid++],
      [maxjid(jobs) + 1]) wraps at 32 bits through [wrap32].
    - The global [jobs] array (MAXJOBS = 16 slots) and the global [nextjid] form
      the [shell] record, passed explicitly.
    - Output and signals sent are a list of [event]s. *)

From Stdlib Require Import List ZArith String Ascii Bool Lia.
From Stdlib Require Import DecimalString Permutation.
Import ListNotations.
Open Scope Z_scope.
Open Scope list_scope.

(** ** Constants *)

Definition MAXJOBS : Z := 16.
Definition INT_MAX : Z := 2147483647.
Definition SIGCONT : Z := 18.

(** Two's-complement wrap-around of a C [int]. *)
Definition wrap32 (z : Z) : Z :=
  let m := Z.modulo (z + 2147483648) 4294967296 in m - 2147483648.

(** [printf("%d", z)] *)
Definition show_Z (z : Z) : string := NilZero.string_of_int (Z.to_int z).

(** ** Job records *)

(** Job states: [#define UNDEF 0], [FG 1], [BG 2], [ST 3]. *)
Inductive jstate := UNDEF | FG | BG | ST.

Definition jstate_eqb (a b : jstate) : bool :=
  match a, b with
  | UNDEF, UNDEF | FG, FG | BG, BG | ST, ST => true
  | _, _ => false
  end.

(** [struct job_t] *)
Record job_t := mkJob {
  pid : Z;
  jid : Z;
  state : jstate;
  cmdline : string
}.

(** The globals [jobs] and [nextjid]. *)
Record shell := mkShell {
  jobs : list job_t;
  nextjid : Z
}.

(** [clearjob]: the value of a cleared slot. *)
Definition cleared_job : job_t := mkJob 0 0 UNDEF EmptyString.

(** [initjobs] together with the initialiser [int nextjid = 1]. *)
Definition init_shell : shell :=
  mkShell (repeat cleared_job (Z.to_nat MAXJOBS)) 1.

(** [jobs[i] = v] on an array slot. *)
Fixpoint set_nth {A} (l : list A) (i : nat) (v : A) : list A :=
  match l, i with
  | [], _ => []
  | _ :: l', O => v :: l'
  | x :: l', S i' => x :: set_nth l' i' v
  end.

(** [job->state = st] for the job in slot [i]. *)
Definition set_state (s : shell) (i : nat) (st : jstate) : shell :=
  match nth_error (jobs s) i with
  | Some j => mkShell (set_nth (jobs s) i (mkJob (pid j) (jid j) st (cmdline j)))
                      (nextjid s)
  | None => s
  end.

(** ** Job-table helpers *)

(** [maxjid]: [max] starts at 0, each slot's [jid] is compared. *)
Definition maxjid (l : list job_t) : Z :=
  fold_left (fun m j => if jid j >? m then jid j else m) l 0.

(** Linear scan returning the index of the first slot satisfying [p]
    (a pointer [&jobs[i]] in C). *)
Fixpoint find_slot (p : job_t -> bool) (l : list job_t) : option (nat * job_t) :=
  match l with
  | [] => None
  | j :: l' =>
      if p j then Some (O, j)
      else match find_slot p l' with
           | Some (i, j') => Some (S i, j')
           | None => None
           end
  end.

(** [getjobpid] *)
Definition getjobpid (l : list job_t) (p : Z) : option (nat * job_t) :=
  if p <? 1 then None else find_slot (fun j => pid j =? p) l.

(** [getjobjid] *)
Definition getjobjid (l : list job_t) (id : Z) : option (nat * job_t) :=
  if id <? 1 then None else find_slot (fun j => jid j =? id) l.

(** [fgpid]: pid of the first slot in state FG, 0 if none. *)
Definition fgpid (l : list job_t) : Z :=
  match find_slot (fun j => jstate_eqb (state j) FG) l with
  | Some (_, j) => pid j
  | None => 0
  end.

(** [addjob]: returns the new globals and the C return value (1/0 as [bool]).
    The first slot with [pid == 0] receives the job; [nextjid++] then
    [if (nextjid > MAXJOBS) nextjid = 1]. *)
Definition addjob (s : shell) (p : Z) (st : jstate) (cmd : string) : shell * bool :=
  if p <? 1 then (s, false)
  else
    match find_slot (fun j => pid j =? 0) (jobs s) with
    | Some (i, _) =>
        let n := wrap32 (nextjid s + 1) in
        (mkShell (set_nth (jobs s) i (mkJob p (nextjid s) st cmd))
                 (if n >? MAXJOBS then 1 else n), true)
    | None => (s, false)
    end.

(** [deletejob]: clears the first slot with that pid and recomputes
    [nextjid = maxjid(jobs) + 1]. *)
Definition deletejob (s : shell) (p : Z) : shell * bool :=
  if p <? 1 then (s, false)
  else
    match find_slot (fun j => pid j =? p) (jobs s) with
    | Some (i, _) =>
        let l := set_nth (jobs s) i cleared_job in
        (mkShell l (wrap32 (maxjid l + 1)), true)
    | None => (s, false)
    end.

(** ** Observable effects *)

(** Text written to stdout/stderr, and [kill(target, sig)] calls. *)
Inductive event :=
| Stdout (msg : string)
| Stderr (msg : string)
| Kill (target sig : Z).

Definition nl : string := String (ascii_of_nat 10) EmptyString.

(** How a call that may block in [waitfg] ends: it returned with the given
    globals, or it is still suspended in [pause()] with them. *)
Inductive outcome :=
| Returns (s : shell)
| Blocked (s : shell).

(** ** [waitfg] *)

(** The loop condition [job && job->state == FG]. *)
Definition still_fg (p : Z) (s : shell) : bool :=
  match getjobpid (jobs s) p with
  | Some (_, j) => jstate_eqb (state j) FG
  | None => false
  end.

(** [waitfg(pid)]: [env] lists the globals as left by the signal handlers
    that run during each successive [pause()]; when it is exhausted while the
    loop still waits, the caller is blocked. *)
Fixpoint waitfg (p : Z) (s : shell) (env : list shell) : outcome :=
  if still_fg p s then
    match env with
    | [] => Blocked s
    | s' :: env' => waitfg p s' env'
    end
  else Returns s.

(** ** [strtol(id_str, &endptr, 10)] *)

Definition LONG_MAX : Z := 9223372036854775807.
Definition LONG_MIN : Z := -9223372036854775808.

(** [isspace] in the C locale. *)
Definition c_isspace (c : ascii) : bool :=
  let n := nat_of_ascii c in
  orb (Nat.eqb n 32) (andb (Nat.leb 9 n) (Nat.leb n 13)).

Definition c_isdigit (c : ascii) : bool :=
  let n := nat_of_ascii c in andb (Nat.leb 48 n) (Nat.leb n 57).

Definition digit_val (c : ascii) : Z := Z.of_nat (nat_of_ascii c) - 48.

Fixpoint skip_isspace (s : string) : string :=
  match s with
  | String c s' => if c_isspace c then skip_isspace s' else s
  | EmptyString => s
  end.

(** Accumulates the leading decimal digits; returns the value and the text
    after them ([endptr]). *)
Fixpoint scan_digits (acc : Z) (s : string) : Z * string :=
  match s with
  | String c s' => if c_isdigit c then scan_digits (acc * 10 + digit_val c) s'
                   else (acc, s)
  | EmptyString => (acc, s)
  end.

(** Returns the converted [long] and the suffix starting at [endptr]. With no
    digits, the value is 0 and [endptr] is the start of the input; an
    out-of-range value saturates at [LONG_MIN]/[LONG_MAX]. *)
Definition strtol (s : string) : Z * string :=
  let s1 := skip_isspace s in
  let '(neg, s2) :=
    match s1 with
    | String c r =>
        if Ascii.eqb c "-"%char then (true, r)
        else if Ascii.eqb c "+"%char then (false, r) else (false, s1)
    | EmptyString => (false, s1)
    end in
  match s2 with
  | String c _ =>
      if c_isdigit c then
        let '(v, rest) := scan_digits 0 s2 in
        let v' := if neg then - v else v in
        (Z.max LONG_MIN (Z.min LONG_MAX v'), rest)
      else (0, s)
  | EmptyString => (0, s)
  end.

(** ** [do_bgfg] *)

(** Lines 387-402: strip an optional ['%'], convert with [strtol], reject when
    [*endptr != '\0'], and coerce the [long] to [int]. Returns [is_jid] and
    [id]. *)
Definition parse_id (arg : string) : option (bool * Z) :=
  let '(is_jid, id_str) :=
    match arg with
    | String c r => if Ascii.eqb c "%"%char then (true, r) else (false, arg)
    | EmptyString => (false, arg)
    end in
  let '(id_lng, endp) := strtol id_str in
  match endp with
  | EmptyString => Some (is_jid, wrap32 id_lng)
  | String _ _ => None
  end.

(** Lines 404-406. *)
Definition lookup (s : shell) (is_jid : bool) (id : Z) : option (nat * job_t) :=
  if is_jid then getjobjid (jobs s) id else getjobpid (jobs s) id.

(** Line 408: ["%%%d: No such job\n"] or ["(%d): No such process\n"]. *)
Definition no_such_msg (is_jid : bool) (id : Z) : string :=
  if is_jid then "%" ++ show_Z id ++ ": No such job" ++ nl
  else "(" ++ show_Z id ++ "): No such process" ++ nl.

(** Line 416: ["[%d] (%d) %s"]. *)
Definition job_line (j : job_t) : string :=
  "[" ++ show_Z (jid j) ++ "] (" ++ show_Z (pid j) ++ ") " ++ cmdline j.

(** [do_bgfg(argc, argv)] with [argc = length argv]; [argv[0]] is ["bg"] or
    ["fg"] (the only way [builtin_cmd] calls it). *)
Definition do_bgfg (argv : list string) (s : shell) (env : list shell)
  : list event * outcome :=
  match argv with
  | [cmd; arg] =>
      match parse_id arg with
      | None => ([Stderr (cmd ++ ": argument must be a PID or %jobid" ++ nl)], Returns s)
      | Some (is_jid, id) =>
          match lookup s is_jid id with
          | None => ([Stderr (no_such_msg is_jid id)], Returns s)
          | Some (i, j) =>
              if String.eqb cmd "bg" then
                ([Kill (- pid j) SIGCONT; Stdout (job_line j)], Returns (set_state s i BG))
              else
                ([Kill (- pid j) SIGCONT], waitfg (pid j) (set_state s i FG) env)
          end
      end
  | _ =>
      ([Stderr (hd EmptyString argv ++ " command requires PID or %jobid argument" ++ nl)],
       Returns s)
  end.

(** ** [sigchld_handler] *)

(** A child status as decoded by [WIFEXITED]/[WIFSIGNALED]/[WIFSTOPPED];
    [WOther] is any status none of the three macros accepts. *)
Inductive wstatus :=
| WExited (code : Z)
| WSignaled (sig : Z)
| WStopped (sig : Z)
| WOther.

(** How the handler ends: it returned (with the globals, the children still
    reapable, and its output); it dereferenced the NULL result of [getjobpid];
    or it called [unix_error], which exits the shell with status 1. *)
Inductive handler_result :=
| HReturn (s : shell) (unreaped : list (Z * wstatus)) (out : list event)
| HNullDeref (s : shell)
| HExit (code : Z).

(** Line 504. *)
Definition stop_msg (j : job_t) (p sig : Z) : string :=
  "Job [" ++ show_Z (jid j) ++ "] (" ++ show_Z p ++ ") stopped by signal "
    ++ show_Z sig ++ nl.

(** [sigchld_handler]. [reapable] lists, in order, the [(pid, status)] pairs
    that successive calls of [waitpid(-1, &status, WNOHANG | WUNTRACED)] return
    at entry; when it is empty [waitpid] returns 0 and the loop ends. Every
    branch of the loop body ends in [return] (or in [unix_error]), so the body
    runs at most once and the remaining pairs stay unreaped. *)
Definition sigchld_handler (reapable : list (Z * wstatus)) (s : shell) : handler_result :=
  match reapable with
  | [] => HReturn s [] []
  | (p, st) :: rest =>
      match st with
      | WExited _ => HReturn (fst (deletejob s p)) rest []
      | WSignaled _ => HReturn (fst (deletejob s p)) rest []
      | WStopped sig =>
          match getjobpid (jobs s) p with
          | Some (i, j) => HReturn (set_state s i ST) rest [Stdout (stop_msg j p sig)]
          | None => HNullDeref s
          end
      | WOther => HExit 1
      end
  end.

(** ** [parseline] *)

(** [buf[strlen(buf) - 1] = ' ']. *)
Fixpoint replace_last (c : ascii) (s : string) : string :=
  match s with
  | EmptyString => EmptyString
  | String _ EmptyString => String c EmptyString
  | String x r => String x (replace_last c r)
  end.

(** Skipping spaces at [buf] (lines 303-304 and 319-320). *)
Fixpoint skip_spaces (s : string) : string :=
  match s with
  | String c r => if Ascii.eqb c " "%char then skip_spaces r else s
  | EmptyString => s
  end.

(** [strchr(s, c)] as an offset. *)
Fixpoint index_of (c : ascii) (s : string) : option nat :=
  match s with
  | EmptyString => None
  | String x r => if Ascii.eqb x c then Some O else option_map S (index_of c r)
  end.

(** The argv-building loop (lines 308-328), from a [buf] whose leading spaces
    are skipped. Text after the last delimiter is dropped. Each round consumes
    at least one character, so [length buf + 1] rounds of fuel suffice. *)
Fixpoint tokens (fuel : nat) (buf : string) : list string :=
  match fuel with
  | O => []
  | S f =>
      let '(start, delim) :=
        match buf with
        | String q r => if Ascii.eqb q "'"%char then (r, index_of "'"%char r)
                        else (buf, index_of " "%char buf)
        | EmptyString => (buf, index_of " "%char buf)
        end in
      match delim with
      | None => []
      | Some k =>
          substring 0 k start
            :: tokens f (skip_spaces (substring (S k) (length start) start))
      end
  end.

(** What [parseline] produces: the [argv] entries before the [NULL], the value
    stored through [argc_dest] ([None] when it is not written), and the
    return value. *)
Record parse_result := mkParse {
  pr_argv : list string;
  pr_argc : option Z;
  pr_ret : Z
}.

(** [parseline(cmdline, &argc, argv)]. [fgets] never hands it an empty string
    ([strlen(buf) - 1] would index before the buffer), so [""] gives [None]. *)
Definition parseline (cmd : string) : option parse_result :=
  match cmd with
  | EmptyString => None
  | String _ _ =>
      let b := skip_spaces (replace_last " "%char cmd) in
      let argv := tokens (S (length b)) b in
      match argv with
      | [] => Some (mkParse [] None 1)
      | _ :: _ =>
          let bg := match last argv EmptyString with
                    | String c _ => Ascii.eqb c "&"%char
                    | EmptyString => false
                    end in
          let argv' := if bg then removelast argv else argv in
          Some (mkParse argv' (Some (Z.of_nat (List.length argv'))) (if bg then 1 else 0))
      end
  end.

(** ** Sequences of job-table operations *)

Inductive op :=
| OpAdd (p : Z) (st : jstate) (cmd : string)
| OpDel (p : Z).

Definition step (s : shell) (o : op) : shell :=
  match o with
  | OpAdd p st c => fst (addjob s p st c)
  | OpDel p => fst (deletejob s p)
  end.

Definition run (s : shell) (ops : list op) : shell := fold_left step ops s.

(** ** [pid2jid] and [listjobs] *)

(** [pid2jid(pid)] over the job array. *)
Definition pid2jid (l : list job_t) (p : Z) : Z :=
  if p <? 1 then 0
  else match find_slot (fun j => Z.eqb (pid j) p) l with
       | Some (_, j) => jid j
       | None => 0
       end.

(** The [int] value of a state ([#define UNDEF 0] ...). *)
Definition state_code (st : jstate) : Z :=
  match st with UNDEF => 0 | FG => 1 | BG => 2 | ST => 3 end.

(** The [switch] of [listjobs] for slot [i]. *)
Definition state_label (i : nat) (st : jstate) : string :=
  match st with
  | BG => "Running "
  | FG => "Foreground "
  | ST => "Stopped "
  | UNDEF => "listjobs: Internal error: job[" ++ show_Z (Z.of_nat i) ++ "].state="
               ++ show_Z (state_code st) ++ " "
  end.

(** [listjobs], from slot [i] on: three [printf] calls per non-empty slot. *)
Fixpoint listjobs_from (i : nat) (l : list job_t) : list event :=
  match l with
  | [] => []
  | j :: l' =>
      (if Z.eqb (pid j) 0 then []
       else [Stdout ("[" ++ show_Z (jid j) ++ "] (" ++ show_Z (pid j) ++ ") ");
             Stdout (state_label i (state j));
             Stdout (cmdline j)])
        ++ listjobs_from (S i) l'
  end.

Definition listjobs (l : list job_t) : list event := listjobs_from 0 l.

(** ** [sigint_handler] and [sigtstp_handler] *)

(** [kill_ok] is whether [kill(-pid, sig)] succeeds. [None] is the NULL
    dereference of [job->jid] (reached only when [getjobpid] misses the pid
    [fgpid] returned). The handler writes no job-table field. *)
Definition sigint_handler (kill_ok : bool) (sig : Z) (s : shell) : option (list event) :=
  let p := fgpid (jobs s) in
  if Z.eqb p 0 then Some [Stdout ("no foreground job exists" ++ nl)]
  else
    let job := getjobpid (jobs s) p in
    if kill_ok then
      match job with
      | Some (_, j) =>
          Some [Kill (- p) sig;
                Stdout ("Job [" ++ show_Z (jid j) ++ "] (" ++ show_Z p
                          ++ ") terminated by signal " ++ show_Z sig ++ nl)]
      | None => None
      end
    else Some [Kill (- p) sig; Stdout ("Interrupt error: failed to kill " ++ show_Z p ++ nl)].

(** [sigtstp_handler] with [verbose == 0] (no [-v]), so the logging call that
    reads [job->jid] is not evaluated. *)
Definition sigtstp_handler (kill_ok : bool) (sig : Z) (s : shell) : list event :=
  let p := fgpid (jobs s) in
  if Z.eqb p 0 then [Stdout ("no foreground job exists" ++ nl)]
  else if kill_ok then [Kill (- p) sig]
  else [Kill (- p) sig; Stdout ("Stop error: failed to stop " ++ show_Z p ++ nl)].

(** ** [builtin_cmd] *)

Inductive builtin_result :=
| BNullDeref                                (** [strcmp] on [argv[0] == NULL] *)
| BExit (code : Z)                          (** [exit(0)] on [quit] *)
| BDone (out : list event) (o : outcome)    (** returned 1 *)
| BNotBuiltin.                              (** returned 0 *)

Definition builtin_cmd (argv : list string) (s : shell) (env : list shell) : builtin_result :=
  match argv with
  | [] => BNullDeref
  | a :: _ =>
      if String.eqb "quit" a then BExit 0
      else if String.eqb "jobs" a then BDone (listjobs (jobs s)) (Returns s)
      else if orb (String.eqb "bg" a) (String.eqb "fg" a) then
        let '(ev, o) := do_bgfg argv s env in BDone ev o
      else BNotBuiltin
  end.

(** ** [eval] (the shell's side) *)

(** What [addjob] writes to stderr ([verbose == 0]). *)
Definition addjob_out (s : shell) (p : Z) : list event :=
  if p <? 1 then [Stderr ("Unable to create job for pid " ++ show_Z p)]
  else match find_slot (fun j => Z.eqb (pid j) 0) (jobs s) with
       | Some _ => []
       | None => [Stderr ("Tried to create too many jobs" ++ nl)]
       end.

(** How [eval] ends; [chld_blocked] is whether SIGCHLD is blocked on return. *)
Inductive eval_result :=
| ENullDeref
| EExit (code : Z)
| EDone (out : list event) (o : outcome) (chld_blocked : bool).

(** [eval(cmdline)] in the shell process. [fork_ret] is what [fork()] returns
    there ([-1] or the child's pid), [blocked] whether SIGCHLD is blocked on
    entry, [env] the globals after each [pause()] of [waitfg]. Signal handlers
    are taken to run only in those [pause()] calls. [parseline]'s [None]
    (the empty string, which [fgets] never yields) stays [None]. *)
Definition eval (cmd : string) (s : shell) (fork_ret : Z) (blocked : bool)
                (env : list shell) : option eval_result :=
  match parseline cmd with
  | None => None
  | Some r =>
      let bg := negb (Z.eqb (pr_ret r) 0) in
      match builtin_cmd (pr_argv r) s env with
      | BNullDeref => Some ENullDeref
      | BExit c => Some (EExit c)
      | BDone ev o => Some (EDone ev o blocked)
      | BNotBuiltin =>
          if Z.eqb fork_ret (-1) then
            Some (EDone [Stderr ("Unable to fork child process for: " ++ cmd)] (Returns s) blocked)
          else
            let '(s', ok) := addjob s fork_ret (if bg then BG else FG) cmd in
            if negb ok then
              Some (EDone (addjob_out s fork_ret ++ [Stderr ("Failed to create job for " ++ cmd)])
                          (Returns s') true)
            else if bg then
              Some (EDone [Stdout ("[" ++ show_Z (pid2jid (jobs s') fork_ret) ++ "] ("
                                   ++ show_Z fork_ret ++ ") " ++ cmd)] (Returns s') false)
            else Some (EDone [] (waitfg fork_ret s' env) false)
      end
  end.

(** ** Command lines made of plain words *)

(** Words joined by single spaces. *)
Fixpoint join_words (ws : list string) : string :=
  match ws with
  | [] => EmptyString
  | [w] => w
  | w :: r => (w ++ String " "%char (join_words r))%string
  end.

(** Each word followed by a space, as [buf] is once [parseline] has put a
    space in place of the final newline. *)
Fixpoint words_sp (ws : list string) : string :=
  match ws with
  | [] => EmptyString
  | w :: r => (w ++ String " "%char (words_sp r))%string
  end.

(** A word [parseline] splits off as it is: nonempty, no space, not quoted. *)
Definition good_word (w : string) : bool :=
  match w with
  | EmptyString => false
  | String q _ => negb (Ascii.eqb q "'"%char)
                  && match index_of " "%char w with None => true | Some _ => false end
  end.

(** The test of line 334 on a word: does it start with ['&']? *)
Definition amp_word (w : string) : bool :=
  match w with
  | String c _ => Ascii.eqb c "&"%char
  | EmptyString => false
  end.

(** ** Well-formed slots *)

(** A slot is either exactly what [clearjob] leaves, or holds a job with a
    positive pid and a defined state. *)
Definition slot_wf (j : job_t) : Prop :=
  j = cleared_job \/ (1 <= pid j /\ state j <> UNDEF).

Definition table_wf (l : list job_t) : Prop :=
  List.length l = Z.to_nat MAXJOBS /\ Forall slot_wf l.

(** Every add of the sequence uses a defined state ([eval] uses BG or FG). *)
Definition adds_defined (ops : list op) : bool :=
  forallb (fun o => match o with
                    | OpAdd _ st _ => negb (jstate_eqb st UNDEF)
                    | OpDel _ => true
                    end) ops.

(** One line of [listjobs] for a used slot. *)
Definition job_lines (j : job_t) : list event :=
  [Stdout ("[" ++ show_Z (jid j) ++ "] (" ++ show_Z (pid j) ++ ") ")%string;
   Stdout (state_label 0 (state j));
   Stdout (cmdline j)].

Definition slot_used (j : job_t) : bool := negb (Z.eqb (pid j) 0).

Open Scope string_scope.

Example parse_ex1 : parseline ("fg %1" ++ nl) = Some (mkParse ["fg"; "%1"] (Some 2) 0).
Proof. reflexivity. Qed.
Example parse_ex2 : parseline ("sleep 5 &" ++ nl) = Some (mkParse ["sleep"; "5"] (Some 2) 1).
Proof. reflexivity. Qed.
Example parse_ex3 : parseline ("echo 'a b' c" ++ nl) = Some (mkParse ["echo"; "a b"; "c"] (Some 3) 0).
Proof. reflexivity. Qed.
Example strtol_ex : strtol " -12x" = (-12, "x"%string).
Proof. reflexivity. Qed.
Example show_ex : show_Z (-42) = "-42"%string.
Proof. reflexivity. Qed.

Open Scope Z_scope.

(** ** General lemmas about the scans *)

Lemma find_slot_Some (f : job_t -> bool) (l : list job_t) (i : nat) (x : job_t) :
  find_slot f l = Some (i, x) -> nth_error l i = Some x /\ f x = true.
Proof.
  revert i. induction l as [|y l IH]; intros i H; simpl in H; [discriminate|].
  destruct (f y) eqn:Ey.
  - injection H as <- <-. split; [reflexivity | exact Ey].
  - destruct (find_slot f l) as [[k z]|] eqn:E; [|discriminate].
    injection H as <- <-. apply IH. reflexivity.
Qed.

Lemma find_slot_None (f : job_t -> bool) (l : list job_t) :
  find_slot f l = None <-> (forall j, In j l -> f j = false).
Proof.
  induction l as [|y l IH]; simpl.
  - split; [intros _ j []|reflexivity].
  - destruct (f y) eqn:Ey.
    + split; [discriminate|]. intros H. rewrite (H y (or_introl eq_refl)) in Ey. discriminate.
    + destruct (find_slot f l) as [[k z]|] eqn:E.
      * split; [discriminate|]. intros H. exfalso.
        assert (Hn : Some (k, z) = None) by (apply IH; intros j Hj; apply H; right; exact Hj).
        discriminate.
      * split; [|reflexivity]. intros _ j [<-|Hj]; [exact Ey|]. apply IH; [reflexivity|exact Hj].
Qed.

(** ** Sample tables *)

Definition sleep5 : string := "sleep 5 &" ++ nl.

(** Two background jobs, pids 100 and 101, in slots 0 and 1. *)
Definition two_bg : shell :=
  run init_shell [OpAdd 100 BG sleep5; OpAdd 101 BG ("sleep 6 &" ++ nl)].

(** A background job (pid 100) and a foreground job (pid 200). *)
Definition fg_ops : list op := [OpAdd 100 BG sleep5; OpAdd 200 FG ("sleep 9" ++ nl)].

Definition fg_one : shell := run init_shell fg_ops.

(** ** C1: one invocation of the SIGCHLD handler *)

(** Whatever the reapable children, one invocation processes at most the first
    of them: the others are left unreaped. *)
Lemma sigchld_handler_single_round (c1 c2 : Z * wstatus) (rest : list (Z * wstatus))
      (s : shell) :
  match sigchld_handler (c1 :: c2 :: rest) s with
  | HReturn _ unreaped _ => unreaped = c2 :: rest
  | _ => True
  end.
Proof.
  destruct c1 as [p st]. simpl.
  destruct st; try exact I; try reflexivity.
  destruct (getjobpid (jobs s) p) as [[i j]|]; [reflexivity | exact I].
Qed.

(** C1 (code_bug witness). Both background children 100 and 101 have exited
    when the handler runs; the invocation deletes job 100 and returns, leaving
    child 101 unreaped and its job still in the table. *)
Lemma sigchld_handler_leaves_second_child :
  match sigchld_handler [(100, WExited 0); (101, WExited 0)] two_bg with
  | HReturn s' unreaped _ =>
      unreaped = [(101, WExited 0)] /\
      getjobpid (jobs s') 100 = None /\
      getjobpid (jobs s') 101 = Some (1%nat, mkJob 101 2 BG ("sleep 6 &" ++ nl))
  | _ => False
  end.
Proof. vm_compute. repeat split. Qed.

(** ** C10: the stopped-child branch needs the job to be in the table *)

(** C10. For a stopped child, the handler dereferences NULL exactly when
    [getjobpid] finds no job with the reaped pid: the branch is safe only when
    such a job exists. *)
Theorem sigchld_stopped_deref_iff_absent (s : shell) (p sig : Z)
        (rest : list (Z * wstatus)) :
  sigchld_handler ((p, WStopped sig) :: rest) s = HNullDeref s
  <-> getjobpid (jobs s) p = None.
Proof.
  simpl. destruct (getjobpid (jobs s) p) as [[i j]|]; split; intros H;
    solve [reflexivity | discriminate].
Qed.

(** When the job is found, the branch marks it Stopped and reports it. *)
Lemma sigchld_stopped_found (s : shell) (p sig : Z) (rest : list (Z * wstatus))
      (i : nat) (j : job_t) :
  getjobpid (jobs s) p = Some (i, j) ->
  sigchld_handler ((p, WStopped sig) :: rest) s
  = HReturn (set_state s i ST) rest [Stdout (stop_msg j p sig)].
Proof. intros H. simpl. rewrite H. reflexivity. Qed.

(** ** C4: the blank line *)

Fixpoint spaces (n : nat) : string :=
  match n with
  | O => EmptyString
  | S k => String " "%char (spaces k)
  end.

Lemma replace_last_spaces (n : nat) :
  replace_last " "%char (spaces n ++ nl) = spaces (S n).
Proof.
  induction n as [|k IH]; [reflexivity|].
  change (spaces (S k) ++ nl) with (String " "%char (spaces k ++ nl)).
  cbn [replace_last].
  destruct (spaces k ++ nl) as [|c r] eqn:E.
  - destruct k; discriminate.
  - rewrite IH. reflexivity.
Qed.

Lemma skip_spaces_spaces (n : nat) : skip_spaces (spaces n) = EmptyString.
Proof. induction n as [|k IH]; [reflexivity | exact IH]. Qed.

(** C4 (counterexample). On the empty line ["\n"], [parseline] does not
    report a foreground request: it returns 1. *)
Lemma parseline_empty_line_not_fg :
  ~ (exists r, parseline nl = Some r /\ pr_argv r = [] /\ pr_ret r = 0).
Proof.
  intros [r [H [_ Hret]]]. vm_compute in H. injection H as <-. discriminate.
Qed.

(** C4 (amended). For the empty line and for every line of blanks,
    [parseline] builds no argument ([argv[0] == NULL]) and returns 1
    (background) through its blank-line early return. *)
Theorem parseline_blank_line (n : nat) :
  exists r, parseline (spaces n ++ nl) = Some r /\ pr_argv r = [] /\ pr_ret r = 1.
Proof.
  assert (Hne : exists c t, spaces n ++ nl = String c t) by (destruct n; eexists _, _; reflexivity).
  destruct Hne as [c [t Ht]].
  unfold parseline. rewrite Ht, <- Ht, replace_last_spaces, skip_spaces_spaces.
  eexists. split; [reflexivity | split; reflexivity].
Qed.

(** ** C6: addjob on a full table or with a bad pid *)

(** Every slot in use. *)
Definition table_full (l : list job_t) : bool := forallb (fun j => negb (Z.eqb (pid j) 0)) l.

(** C6. [addjob] returns 0 and leaves the table and [nextjid] as they were
    when [pid < 1] or when no slot is free. *)
Theorem addjob_fails_unchanged (s : shell) (p : Z) (st : jstate) (c : string) :
  p < 1 \/ table_full (jobs s) = true -> addjob s p st c = (s, false).
Proof.
  intros H. unfold addjob.
  destruct (p <? 1) eqn:Hp; [reflexivity|].
  destruct H as [H|H]; [apply Z.ltb_lt in H; congruence|].
  replace (find_slot (fun j => pid j =? 0) (jobs s)) with (@None (nat * job_t)); [reflexivity|].
  symmetry. apply find_slot_None. intros j Hj.
  unfold table_full in H. rewrite forallb_forall in H.
  apply negb_true_iff, H, Hj.
Qed.

(** The table after 16 background jobs, pids 1..16. *)
Definition full16 : shell :=
  run init_shell (map (fun k => OpAdd (Z.of_nat k) BG sleep5) (seq 1 16)).

(** The 17th add on the table of 16 jobs fails and changes nothing. *)
Lemma addjob_fails_unchanged_witness :
  List.length (jobs full16) = 16%nat /\ table_full (jobs full16) = true /\
  addjob full16 17 BG sleep5 = (full16, false).
Proof.
  split; [vm_compute; reflexivity|]. split; [vm_compute; reflexivity|].
  apply addjob_fails_unchanged. right. vm_compute. reflexivity.
Defined.

(** ** C8: no job behind a well-formed id *)

Lemma parse_id_form (arg : string) (is_jid : bool) (id : Z) :
  parse_id arg = Some (is_jid, id) ->
  (is_jid = true <-> exists r, arg = String "%"%char r).
Proof.
  unfold parse_id. destruct arg as [|c r].
  - simpl. intros H. injection H as <- _. split; [discriminate | intros [x Hx]; discriminate].
  - destruct (Ascii.eqb c "%"%char) eqn:Ec.
    + destruct (strtol r) as [v e]. destruct e; [|discriminate].
      intros H. injection H as <- _. apply Ascii.eqb_eq in Ec. subst c.
      split; [intros _; exists r; reflexivity | reflexivity].
    + destruct (strtol (String c r)) as [v e]. destruct e; [|discriminate].
      intros H. injection H as <- _. split; [discriminate|].
      intros [x Hx]. injection Hx as -> _. discriminate.
Qed.

(** C8. When the argument is a well-formed id and no job has it, [do_bgfg]
    writes ["%<id>: No such job"] for a ['%'] argument and
    ["(<id>): No such process"] for a pid, sends no signal and returns with
    the table unchanged. *)
Theorem do_bgfg_no_such_job (cmd arg : string) (s : shell) (env : list shell)
        (is_jid : bool) (id : Z) :
  parse_id arg = Some (is_jid, id) ->
  lookup s is_jid id = None ->
  do_bgfg [cmd; arg] s env = ([Stderr (no_such_msg is_jid id)], Returns s) /\
  (is_jid = true <-> exists r, arg = String "%"%char r).
Proof.
  intros Hp Hl. split.
  - simpl. rewrite Hp, Hl. reflexivity.
  - exact (parse_id_form arg is_jid id Hp).
Qed.

(** The scenario [fg %7] with no job 7 (here, on two background jobs). *)
Lemma do_bgfg_no_such_job_witness :
  no_such_msg true 7 = "%7: No such job" ++ nl /\
  do_bgfg ["fg"; "%7"] two_bg [] = ([Stderr (no_such_msg true 7)], Returns two_bg).
Proof.
  split; [reflexivity|].
  apply (do_bgfg_no_such_job "fg" "%7" two_bg [] true 7); vm_compute; reflexivity.
Defined.

(** ** C9: malformed arguments *)

(** Wrong arity: the usage message, no signal, table unchanged. *)
Lemma do_bgfg_arity_usage (argv : list string) (s : shell) (env : list shell) :
  List.length argv <> 2%nat ->
  do_bgfg argv s env
  = ([Stderr (hd EmptyString argv ++ " command requires PID or %jobid argument" ++ nl)],
     Returns s).
Proof.
  intros H. destruct argv as [|a [|b [|c r]]]; try reflexivity. simpl in H. lia.
Qed.

(** C9 (code_bug witness). A lone ["%"] is not a job id, yet [strtol] on the
    empty rest converts 0 and leaves [endptr] on the terminating NUL, so the
    conversion check passes: [fg %] reports ["%0: No such job"] instead of the
    usage error. *)
Theorem do_bgfg_percent_alone_no_usage (s : shell) (env : list shell) :
  do_bgfg ["fg"; "%"] s env = ([Stderr ("%0: No such job" ++ nl)], Returns s).
Proof. reflexivity. Qed.

Close Scope string_scope.

(** ** C2: pid uniqueness and the single foreground job *)

(** Pids of the non-empty slots, in slot order. *)
Definition nz_pids (l : list job_t) : list Z :=
  map pid (filter (fun j => negb (Z.eqb (pid j) 0)) l).

(** Number of slots in state FG. *)
Definition fg_count (l : list job_t) : nat :=
  List.length (filter (fun j => jstate_eqb (state j) FG) l).

Definition table_ok (s : shell) : Prop :=
  NoDup (nz_pids (jobs s)) /\ (fg_count (jobs s) <= 1)%nat.

(** The discipline of the callers ([eval], fed by [fork]): an added pid is not
    in the table yet, and a job is added in FG only when no job is in FG. *)
Fixpoint disciplined (s : shell) (ops : list op) : bool :=
  match ops with
  | [] => true
  | OpAdd p st c :: r =>
      match getjobpid (jobs s) p with Some _ => false | None => true end
      && (if jstate_eqb st FG then Nat.eqb (fg_count (jobs s)) 0 else true)
      && disciplined (step s (OpAdd p st c)) r
  | OpDel p :: r => disciplined (step s (OpDel p)) r
  end.

Lemma nz_pids_cons (y : job_t) (l : list job_t) : nz_pids (y :: l) = nz_pids [y] ++ nz_pids l.
Proof. unfold nz_pids. simpl. destruct (negb (Z.eqb (pid y) 0)); reflexivity. Qed.

Lemma fg_count_cons (y : job_t) (l : list job_t) : fg_count (y :: l) = (fg_count [y] + fg_count l)%nat.
Proof. unfold fg_count. simpl. destruct (jstate_eqb (state y) FG); reflexivity. Qed.

(** Overwriting slot [i] (holding [x]) by [v] swaps [x]'s pid for [v]'s. *)
Lemma nz_pids_set_nth (l : list job_t) (i : nat) (x v : job_t) :
  nth_error l i = Some x ->
  Permutation (nz_pids [x] ++ nz_pids (set_nth l i v)) (nz_pids [v] ++ nz_pids l).
Proof.
  revert i. induction l as [|y l IH]; intros i H; [destruct i; discriminate|].
  destruct i as [|k]; simpl in H.
  - injection H as ->. cbn [set_nth]. rewrite !(nz_pids_cons _ l).
    apply Permutation_app_swap_app.
  - cbn [set_nth]. rewrite (nz_pids_cons y (set_nth l k v)), (nz_pids_cons y l).
    eapply perm_trans; [apply Permutation_app_swap_app|].
    eapply perm_trans; [apply Permutation_app_head, IH, H|].
    apply Permutation_app_swap_app.
Qed.

Lemma fg_count_set_nth (l : list job_t) (i : nat) (x v : job_t) :
  nth_error l i = Some x ->
  (fg_count [x] + fg_count (set_nth l i v) = fg_count [v] + fg_count l)%nat.
Proof.
  revert i. induction l as [|y l IH]; intros i H; [destruct i; discriminate|].
  destruct i as [|k]; simpl in H.
  - injection H as ->. cbn [set_nth]. rewrite !(fg_count_cons _ l). lia.
  - cbn [set_nth]. rewrite (fg_count_cons y (set_nth l k v)), (fg_count_cons y l).
    specialize (IH k H). lia.
Qed.

Lemma nz_pids_one (j : job_t) : nz_pids [j] = if Z.eqb (pid j) 0 then [] else [pid j].
Proof. unfold nz_pids. simpl. destruct (Z.eqb (pid j) 0); reflexivity. Qed.

Lemma table_ok_addjob (s : shell) (p : Z) (st : jstate) (c : string) :
  table_ok s ->
  getjobpid (jobs s) p = None ->
  (jstate_eqb st FG = true -> fg_count (jobs s) = 0%nat) ->
  table_ok (fst (addjob s p st c)).
Proof.
  intros [Hnd Hfg] Hnew Hst. unfold addjob.
  destruct (p <? 1) eqn:Hp; [split; assumption|].
  destruct (find_slot (fun j => Z.eqb (pid j) 0) (jobs s)) as [[i x]|] eqn:Ef;
    [|split; assumption].
  apply find_slot_Some in Ef as [Hx Hx0]. simpl. split; cbn [jobs].
  - pose proof (nz_pids_set_nth _ _ _ (mkJob p (nextjid s) st c) Hx) as Hperm.
    rewrite !nz_pids_one, Hx0 in Hperm. simpl in Hperm.
    assert (Hp0 : Z.eqb p 0 = false) by (apply Z.eqb_neq; apply Z.ltb_ge in Hp; lia).
    rewrite Hp0 in Hperm.
    apply (Permutation_NoDup (Permutation_sym Hperm)). constructor; [|exact Hnd].
    unfold getjobpid in Hnew. rewrite Hp in Hnew.
    rewrite find_slot_None in Hnew.
    unfold nz_pids. intros Hin. apply in_map_iff in Hin as [j [Hj Hin]].
    apply filter_In in Hin as [Hin _]. specialize (Hnew j Hin).
    rewrite Hj, Z.eqb_refl in Hnew. discriminate.
  - pose proof (fg_count_set_nth _ _ _ (mkJob p (nextjid s) st c) Hx) as Hc.
    assert (Hv : fg_count [mkJob p (nextjid s) st c]
                 = if jstate_eqb st FG then 1%nat else 0%nat)
      by (unfold fg_count; simpl; destruct (jstate_eqb st FG); reflexivity).
    rewrite Hv in Hc.
    destruct (jstate_eqb st FG) eqn:Est.
    + specialize (Hst eq_refl). lia.
    + lia.
Qed.

Lemma table_ok_deletejob (s : shell) (p : Z) :
  table_ok s -> table_ok (fst (deletejob s p)).
Proof.
  intros [Hnd Hfg]. unfold deletejob.
  destruct (p <? 1) eqn:Hp; [split; assumption|].
  destruct (find_slot (fun j => Z.eqb (pid j) p) (jobs s)) as [[i x]|] eqn:Ef;
    [|split; assumption].
  apply find_slot_Some in Ef as [Hx _]. simpl. split; cbn [jobs].
  - pose proof (nz_pids_set_nth _ _ _ cleared_job Hx) as Hperm.
    simpl in Hperm.
    apply (NoDup_app_remove_l (nz_pids [x])).
    exact (Permutation_NoDup (Permutation_sym Hperm) Hnd).
  - pose proof (fg_count_set_nth _ _ _ cleared_job Hx) as Hc.
    simpl in Hc. lia.
Qed.

Lemma table_ok_init : table_ok init_shell.
Proof. split; [vm_compute; constructor | vm_compute; lia]. Qed.

Lemma table_ok_run_prefix (ops : list op) (s : shell) (n : nat) :
  table_ok s -> disciplined s ops = true -> table_ok (run s (firstn n ops)).
Proof.
  revert s n. induction ops as [|o r IH]; intros s n Hok Hd.
  - destruct n; exact Hok.
  - destruct n as [|n]; [exact Hok|]. cbn [firstn run fold_left].
    apply IH.
    + destruct o as [p st c | p]; simpl in Hd |- *.
      * apply andb_true_iff in Hd as [Hd _]. apply andb_true_iff in Hd as [Hnew Hfg].
        apply table_ok_addjob; [exact Hok| |].
        { destruct (getjobpid (jobs s) p); [discriminate | reflexivity]. }
        { intros Hst. rewrite Hst in Hfg. apply Nat.eqb_eq, Hfg. }
      * apply table_ok_deletejob, Hok.
    + destruct o; simpl in Hd; [apply andb_true_iff in Hd as [_ Hd]|]; exact Hd.
Qed.

(** C2 (counterexample). [addjob] checks neither condition: adding pid 100
    twice gives two non-empty slots with pid 100, and adding two FG jobs gives
    two FG slots. *)
Lemma addjob_duplicates_from_init :
  ~ table_ok (run init_shell [OpAdd 100 BG sleep5; OpAdd 100 BG sleep5]) /\
  ~ table_ok (run init_shell [OpAdd 100 FG sleep5; OpAdd 101 FG sleep5]).
Proof.
  split; intros [Hnd Hfg].
  - vm_compute in Hnd. inversion Hnd as [|x l Hnot Hnd']. apply Hnot. left. reflexivity.
  - vm_compute in Hfg. lia.
Qed.

(** C2 (amended). From the initialized table, along every sequence of adds and
    removes in which each add uses a pid not yet in the table and adds an FG
    job only when no job is in FG, no two non-empty slots share a pid and at
    most one slot is in FG, after every prefix of the sequence. *)
Theorem table_ok_disciplined_runs (ops : list op) (n : nat) :
  disciplined init_shell ops = true -> table_ok (run init_shell (firstn n ops)).
Proof. intros Hd. apply table_ok_run_prefix; [exact table_ok_init | exact Hd]. Qed.

Lemma table_ok_disciplined_runs_witness :
  disciplined init_shell [OpAdd 100 FG sleep5; OpAdd 101 BG sleep5; OpDel 100;
                          OpAdd 102 FG sleep5] = true /\
  table_ok (run init_shell (firstn 4 [OpAdd 100 FG sleep5; OpAdd 101 BG sleep5; OpDel 100;
                                      OpAdd 102 FG sleep5])).
Proof.
  split; [vm_compute; reflexivity|].
  apply table_ok_disciplined_runs. vm_compute. reflexivity.
Defined.

(** ** C3: job ids handed out by [addjob] *)

(** Every non-empty slot has a job id below [n]. *)
Definition jid_above_all (n : Z) (l : list job_t) : bool :=
  forallb (fun j => Z.eqb (pid j) 0 || (jid j <? n)) l.

(** Whether every add of the sequence finds a free slot. *)
Fixpoint never_full_at_add (s : shell) (ops : list op) : bool :=
  match ops with
  | [] => true
  | OpAdd p st c :: r =>
      negb (table_full (jobs s)) && never_full_at_add (step s (OpAdd p st c)) r
  | OpDel p :: r => never_full_at_add (step s (OpDel p)) r
  end.

(** The claim read literally: each successful add assigns ([jid = nextjid]) an
    id above all ids present. *)
Fixpoint all_adds_fresh (s : shell) (ops : list op) : bool :=
  match ops with
  | [] => true
  | OpAdd p st c :: r =>
      (if snd (addjob s p st c) then jid_above_all (nextjid s) (jobs s) else true)
      && all_adds_fresh (fst (addjob s p st c)) r
  | OpDel p :: r => all_adds_fresh (fst (deletejob s p)) r
  end.

(** The job ids assigned by the successful adds of a sequence. *)
Fixpoint assigned_jids (s : shell) (ops : list op) : list Z :=
  match ops with
  | [] => []
  | OpAdd p st c :: r =>
      (if snd (addjob s p st c) then [nextjid s] else [])
        ++ assigned_jids (fst (addjob s p st c)) r
  | OpDel p :: r => assigned_jids (fst (deletejob s p)) r
  end.

(** The amended reading. [w] records that an add has assigned an id
    [>= MAXJOBS] (so [nextjid] wrapped to 1) since the last successful delete;
    while [w] is false each successful add must assign an id above all ids
    present, and each successful delete must set [nextjid] to
    [maxjid + 1]. *)
Fixpoint jids_fresh (w : bool) (s : shell) (ops : list op) : bool :=
  match ops with
  | [] => true
  | OpAdd p st c :: r =>
      if snd (addjob s p st c) then
        (w || jid_above_all (nextjid s) (jobs s))
          && jids_fresh (w || (MAXJOBS <=? nextjid s)) (fst (addjob s p st c)) r
      else jids_fresh w (fst (addjob s p st c)) r
  | OpDel p :: r =>
      if snd (deletejob s p) then
        Z.eqb (nextjid (fst (deletejob s p))) (maxjid (jobs (fst (deletejob s p))) + 1)
          && jids_fresh false (fst (deletejob s p)) r
      else jids_fresh w (fst (deletejob s p)) r
  end.

(** Keep two jobs, deleting the older one before each add, until job 16 is
    added; then add once more. The table never holds more than two jobs. *)
Definition slide_ops : list op :=
  [OpAdd 1 BG sleep5; OpAdd 2 BG sleep5]
    ++ flat_map (fun k => [OpDel (Z.of_nat k); OpAdd (Z.of_nat k + 2) BG sleep5]) (seq 1 14)
    ++ [OpAdd 17 BG sleep5].

(** C3 (counterexample). Along [slide_ops] no add meets a full table, yet the
    last add assigns job id 1 while job 16 is present. *)
Lemma jid_wraps_below_present :
  never_full_at_add init_shell slide_ops = true /\
  all_adds_fresh init_shell slide_ops = false /\
  nextjid (run init_shell (removelast slide_ops)) = 1 /\
  getjobjid (jobs (run init_shell (removelast slide_ops))) 16 <> None.
Proof.
  split; [vm_compute; reflexivity|]. split; [vm_compute; reflexivity|].
  split; [vm_compute; reflexivity|]. vm_compute. discriminate.
Qed.

(** *** Lemmas on [maxjid] and slot updates *)

Definition max_step (m : Z) (j : job_t) : Z := if jid j >? m then jid j else m.

Lemma max_fold_ge (l : list job_t) (m : Z) : m <= fold_left max_step l m.
Proof.
  revert m. induction l as [|y l IH]; intros m; simpl; [lia|].
  specialize (IH (max_step m y)). unfold max_step in *.
  destruct (jid y >? m) eqn:E; [apply Z.gtb_lt in E|]; lia.
Qed.

Lemma max_fold_upper (l : list job_t) (m : Z) (j : job_t) :
  In j l -> jid j <= fold_left max_step l m.
Proof.
  revert m. induction l as [|y l IH]; intros m Hin; [destruct Hin|].
  destruct Hin as [->|Hin]; simpl; [|apply IH, Hin].
  eapply Z.le_trans; [|apply max_fold_ge]. unfold max_step.
  destruct (jid j >? m) eqn:E; [lia|]. rewrite Z.gtb_ltb in E. apply Z.ltb_ge in E. lia.
Qed.

Lemma max_fold_lt (l : list job_t) (m b : Z) :
  m < b -> (forall j, In j l -> jid j < b) -> fold_left max_step l m < b.
Proof.
  revert m. induction l as [|y l IH]; intros m Hm Hl; simpl; [exact Hm|].
  apply IH; [|intros j Hj; apply Hl; right; exact Hj].
  unfold max_step. destruct (jid y >? m); [apply Hl; left; reflexivity | exact Hm].
Qed.

Lemma maxjid_fold (l : list job_t) : maxjid l = fold_left max_step l 0.
Proof. reflexivity. Qed.

Lemma In_set_nth (l : list job_t) (i : nat) (v j : job_t) :
  In j (set_nth l i v) -> In j l \/ j = v.
Proof.
  revert i. induction l as [|y l IH]; intros i H; [destruct i; destruct H|].
  destruct i as [|k]; simpl in H.
  - destruct H as [<-|H]; [right; reflexivity | left; right; exact H].
  - destruct H as [<-|H]; [left; left; reflexivity|].
    destruct (IH k H) as [H'|H']; [left; right; exact H' | right; exact H'].
Qed.

Lemma wrap32_id (z : Z) : -2147483648 <= z < 2147483648 -> wrap32 z = z.
Proof. intros H. unfold wrap32. rewrite Z.mod_small; lia. Qed.

Lemma addjob_cases (s : shell) (p : Z) (st : jstate) (c : string) :
  addjob s p st c = (s, false) \/
  exists i x, nth_error (jobs s) i = Some x /\ 1 <= p /\
    addjob s p st c =
      (mkShell (set_nth (jobs s) i (mkJob p (nextjid s) st c))
               (if wrap32 (nextjid s + 1) >? MAXJOBS then 1 else wrap32 (nextjid s + 1)),
       true).
Proof.
  unfold addjob. destruct (p <? 1) eqn:Hp; [left; reflexivity|].
  destruct (find_slot (fun j => Z.eqb (pid j) 0) (jobs s)) as [[i x]|] eqn:E;
    [|left; reflexivity].
  right. apply find_slot_Some in E as [Hx _]. apply Z.ltb_ge in Hp.
  exists i, x. split; [exact Hx | split; [lia | reflexivity]].
Qed.

Lemma deletejob_cases (s : shell) (p : Z) :
  deletejob s p = (s, false) \/
  exists i x, nth_error (jobs s) i = Some x /\ 1 <= p /\ pid x = p /\
    deletejob s p =
      (mkShell (set_nth (jobs s) i cleared_job)
               (wrap32 (maxjid (set_nth (jobs s) i cleared_job) + 1)), true).
Proof.
  unfold deletejob. destruct (p <? 1) eqn:Hp; [left; reflexivity|].
  destruct (find_slot (fun j => Z.eqb (pid j) p) (jobs s)) as [[i x]|] eqn:E;
    [|left; reflexivity].
  right. apply find_slot_Some in E as [Hx Hpx]. apply Z.ltb_ge in Hp.
  apply Z.eqb_eq in Hpx.
  exists i, x. split; [exact Hx | split; [lia | split; [exact Hpx | reflexivity]]].
Qed.

(** *** The invariant behind [jids_fresh] *)

Definition jid_inv (w : bool) (s : shell) : Prop :=
  (forall j, In j (jobs s) -> jid j < INT_MAX) /\
  1 <= nextjid s <= INT_MAX /\
  (w = false -> maxjid (jobs s) < nextjid s).

Lemma jid_inv_init : jid_inv false init_shell.
Proof.
  split; [|split; [vm_compute; split; discriminate | intros _; vm_compute; reflexivity]].
  intros j Hj. apply repeat_spec in Hj. subst j. vm_compute. reflexivity.
Qed.

Lemma jids_fresh_inv (ops : list op) :
  forall w s, jid_inv w s ->
  forallb (fun z => z <? INT_MAX) (assigned_jids s ops) = true ->
  jids_fresh w s ops = true.
Proof.
  induction ops as [|o r IH]; intros w s Hinv Ha; [reflexivity|].
  destruct Hinv as [Hj [Hn Hw]].
  destruct o as [p st c | p]; cbn [jids_fresh assigned_jids] in Ha |- *.
  - destruct (addjob_cases s p st c) as [E | [i [x [Hx [Hp E]]]]];
      rewrite E in Ha |- *; cbn [fst snd app forallb] in Ha |- *.
    + apply IH; [split; [exact Hj | split; assumption] | exact Ha].
    + apply andb_true_iff in Ha as [Hlt Ha]. apply Z.ltb_lt in Hlt.
      apply andb_true_iff. split.
      * destruct w; [reflexivity|]. cbn [orb].
        unfold jid_above_all. apply forallb_forall. intros j Hin.
        apply orb_true_iff. right. apply Z.ltb_lt.
        pose proof (max_fold_upper (jobs s) 0 j Hin). rewrite <- maxjid_fold in *.
        specialize (Hw eq_refl). lia.
      * apply IH; [|exact Ha].
        rewrite wrap32_id by (unfold INT_MAX in *; lia).
        split; [|split].
        -- intros j Hin. cbn [jobs] in Hin. apply In_set_nth in Hin as [Hin| ->];
             [apply Hj, Hin | exact Hlt].
        -- cbn [nextjid]. rewrite Z.gtb_ltb.
           destruct (Z.ltb_spec MAXJOBS (nextjid s + 1)); unfold INT_MAX in *; lia.
        -- intros Hw'. apply orb_false_iff in Hw' as [Hw0 H16].
           apply Z.leb_gt in H16. specialize (Hw Hw0).
           cbn [jobs nextjid]. rewrite Z.gtb_ltb.
           destruct (Z.ltb_spec MAXJOBS (nextjid s + 1)); [unfold MAXJOBS in *; lia|].
           rewrite maxjid_fold. apply max_fold_lt; [lia|].
           intros j Hin. apply In_set_nth in Hin as [Hin| ->]; [|cbn [jid]; lia].
           pose proof (max_fold_upper (jobs s) 0 j Hin). rewrite <- maxjid_fold in *. lia.
  - destruct (deletejob_cases s p) as [E | [i [x [Hx [Hp [Hpx E]]]]]];
      rewrite E in Ha |- *; cbn [fst snd] in Ha |- *.
    + apply IH; [split; [exact Hj | split; assumption] | exact Ha].
    + set (l := set_nth (jobs s) i cleared_job) in *.
      assert (Hl : forall j, In j l -> jid j < INT_MAX).
      { intros j Hin. apply In_set_nth in Hin as [Hin| ->]; [apply Hj, Hin | reflexivity]. }
      assert (Hm : 0 <= maxjid l < INT_MAX).
      { rewrite maxjid_fold. split; [apply max_fold_ge | apply max_fold_lt; [reflexivity | exact Hl]]. }
      cbn [jobs nextjid].
      rewrite wrap32_id in Ha |- * by (unfold INT_MAX in *; lia).
      rewrite Z.eqb_refl. cbn [andb].
      apply IH; [|exact Ha].
      split; [exact Hl | split; [cbn [nextjid]; unfold INT_MAX in *; lia | intros _; cbn [jobs nextjid]; lia]].
Qed.

(** C3 (amended). From the initialized table, along every sequence of adds and
    removes (full table or not), as long as no assigned job id reaches
    [INT_MAX]: each successful add assigns an id above every id present,
    except after an add that assigned an id [>= MAXJOBS] (after which
    [nextjid] wraps to 1) and before the next successful delete; and each
    successful delete sets [nextjid] to [maxjid + 1] of the remaining jobs. *)
Theorem jids_fresh_until_wrap (ops : list op) :
  forallb (fun z => z <? INT_MAX) (assigned_jids init_shell ops) = true ->
  jids_fresh false init_shell ops = true.
Proof. intros H. exact (jids_fresh_inv ops false init_shell jid_inv_init H). Qed.

Lemma jids_fresh_until_wrap_witness :
  forallb (fun z => z <? INT_MAX) (assigned_jids init_shell slide_ops) = true /\
  jids_fresh false init_shell slide_ops = true.
Proof.
  split; [vm_compute; reflexivity|].
  apply jids_fresh_until_wrap. vm_compute. reflexivity.
Defined.

(** ** Slot-update lemmas for lookups *)

Lemma count_set_nth (f : job_t -> bool) (l : list job_t) (i : nat) (x v : job_t) :
  nth_error l i = Some x ->
  (List.length (filter f [x]) + List.length (filter f (set_nth l i v))
   = List.length (filter f [v]) + List.length (filter f l))%nat.
Proof.
  revert i. induction l as [|y l IH]; intros i H; [destruct i; discriminate|].
  destruct i as [|k]; simpl in H.
  - injection H as ->. cbn [set_nth filter]. simpl.
    destruct (f x), (f v); simpl; lia.
  - cbn [set_nth]. specialize (IH k H). simpl in IH |- *.
    destruct (f y); simpl; lia.
Qed.

Lemma count_zero_none (f : job_t -> bool) (l : list job_t) :
  List.length (filter f l) = 0%nat -> find_slot f l = None.
Proof.
  intros H. apply find_slot_None. intros j Hj.
  destruct (f j) eqn:E; [|reflexivity].
  assert (Hin : In j (filter f l)) by (apply filter_In; split; assumption).
  destruct (filter f l); [destruct Hin | discriminate].
Qed.

Lemma nth_error_set_nth {A} (l : list A) (i : nat) (v : A) :
  (i < List.length l)%nat -> nth_error (set_nth l i v) i = Some v.
Proof.
  revert i. induction l as [|y l IH]; intros i H; [simpl in H; lia|].
  destruct i as [|k]; [reflexivity|]. simpl in H |- *. apply IH. lia.
Qed.


(** Shape of a successful [addjob] on a table with a free slot. *)
Lemma addjob_free (s : shell) (p : Z) (st : jstate) (c : string) (i : nat) (x : job_t) :
  1 <= p -> find_slot (fun j => Z.eqb (pid j) 0) (jobs s) = Some (i, x) ->
  addjob s p st c =
    (mkShell (set_nth (jobs s) i (mkJob p (nextjid s) st c))
             (if wrap32 (nextjid s + 1) >? MAXJOBS then 1 else wrap32 (nextjid s + 1)), true).
Proof.
  intros Hp Hf. unfold addjob.
  destruct (p <? 1) eqn:E; [apply Z.ltb_lt in E; lia|]. rewrite Hf. reflexivity.
Qed.

Lemma nth_error_set_nth_other {A} (l : list A) (i k : nat) (v : A) :
  k <> i -> nth_error (set_nth l i v) k = nth_error l k.
Proof.
  revert i k. induction l as [|y l IH]; intros i k H; [destruct i; reflexivity|].
  destruct i, k; simpl; try reflexivity; [lia|]. apply IH. lia.
Qed.

Lemma find_slot_le (f : job_t -> bool) (l : list job_t) (i : nat) (x : job_t) :
  nth_error l i = Some x -> f x = true ->
  exists k z, find_slot f l = Some (k, z) /\ (k <= i)%nat.
Proof.
  revert i. induction l as [|y l IH]; intros i Hx Hf; [destruct i; discriminate|].
  simpl. destruct (f y) eqn:Ey; [exists O, y; split; [reflexivity | lia]|].
  destruct i as [|i]; [injection Hx as ->; congruence|].
  destruct (IH i Hx Hf) as [k [z [E Hk]]]. rewrite E.
  exists (S k), z. split; [reflexivity | lia].
Qed.

(** ** C7: deleting a job *)

(** Table with the same pid in two slots (reachable through [addjob]). *)
Definition dup100 : shell :=
  run init_shell [OpAdd 100 BG sleep5; OpAdd 100 ST sleep5].

(** C7 (counterexample). When pid 100 is in two slots, [deletejob] succeeds
    by clearing the first one and [getjobpid] still finds the second. *)
Lemma deletejob_dup_pid_still_found :
  snd (deletejob dup100 100) = true /\
  getjobpid (jobs (fst (deletejob dup100 100))) 100 = Some (1%nat, mkJob 100 2 ST sleep5).
Proof. split; vm_compute; reflexivity. Qed.

(** C7 (amended). For a pid held by exactly one slot [i], [deletejob]
    succeeds and clears exactly slot [i] (every other slot is unchanged);
    [getjobpid] then finds nothing for the pid and [nextjid] becomes
    [maxjid + 1] of the remaining table. A later [addjob] with a valid pid
    succeeds and fills the first free slot, which is slot [i] or an earlier
    one, and is slot [i] itself when the table was full before the delete. *)
Theorem deletejob_unique_pid (s : shell) (p : Z) (i : nat) (j : job_t) :
  1 <= p -> nth_error (jobs s) i = Some j -> pid j = p ->
  List.length (filter (fun x => Z.eqb (pid x) p) (jobs s)) = 1%nat ->
  snd (deletejob s p) = true /\
  jobs (fst (deletejob s p)) = set_nth (jobs s) i cleared_job /\
  getjobpid (jobs (fst (deletejob s p))) p = None /\
  nextjid (fst (deletejob s p)) = wrap32 (maxjid (jobs (fst (deletejob s p))) + 1) /\
  (forall p' st c, 1 <= p' ->
     exists k, (k <= i)%nat /\ (table_full (jobs s) = true -> k = i) /\
       addjob (fst (deletejob s p)) p' st c =
         (mkShell (set_nth (jobs (fst (deletejob s p))) k
                           (mkJob p' (nextjid (fst (deletejob s p))) st c))
                  (if wrap32 (nextjid (fst (deletejob s p)) + 1) >? MAXJOBS then 1
                   else wrap32 (nextjid (fst (deletejob s p)) + 1)), true)).
Proof.
  intros Hp Hj Hpj Hc.
  destruct (deletejob_cases s p) as [E | [i0 [x [Hx [_ [Hpx E]]]]]].
  - exfalso. unfold deletejob in E.
    destruct (p <? 1) eqn:Hp1; [apply Z.ltb_lt in Hp1; lia|].
    destruct (find_slot (fun x => Z.eqb (pid x) p) (jobs s)) as [[i' x]|] eqn:Ef.
    + injection E as _ Hf. discriminate.
    + rewrite find_slot_None in Ef. specialize (Ef j (nth_error_In _ _ Hj)).
      cbn beta in Ef. rewrite Hpj, Z.eqb_refl in Ef. discriminate.
  - assert (Hlt : (i0 < List.length (jobs s))%nat) by (apply nth_error_Some; congruence).
    pose proof (count_set_nth (fun x => Z.eqb (pid x) p) (jobs s) i0 x cleared_job Hx) as Hcnt.
    cbn [filter] in Hcnt. rewrite Hpx, Z.eqb_refl in Hcnt.
    replace (Z.eqb (pid cleared_job) p) with false in Hcnt
      by (symmetry; apply Z.eqb_neq; cbn; lia).
    cbn [List.length] in Hcnt.
    assert (Hnone : find_slot (fun x => Z.eqb (pid x) p) (set_nth (jobs s) i0 cleared_job) = None)
      by (apply count_zero_none; lia).
    assert (Hi : i0 = i).
    { destruct (Nat.eq_dec i0 i) as [->|Hne]; [reflexivity|]. exfalso.
      rewrite find_slot_None in Hnone.
      assert (Hin : In j (set_nth (jobs s) i0 cleared_job))
        by (apply (nth_error_In _ i); rewrite nth_error_set_nth_other; [exact Hj | lia]).
      specialize (Hnone j Hin). cbn beta in Hnone. rewrite Hpj, Z.eqb_refl in Hnone.
      discriminate. }
    subst i0. rewrite E. cbn [fst snd jobs nextjid].
    split; [reflexivity|]. split; [reflexivity|]. split; [|split; [reflexivity|]].
    + unfold getjobpid. destruct (p <? 1); [reflexivity | exact Hnone].
    + intros p' st c Hp'.
      destruct (find_slot_le (fun x => Z.eqb (pid x) 0) (set_nth (jobs s) i cleared_job)
                  i cleared_job (nth_error_set_nth _ _ _ Hlt) eq_refl) as [k [z [Hf Hk]]].
      exists k. split; [exact Hk|]. split.
      * intros Hfull. apply find_slot_Some in Hf as [Hz Hz0].
        destruct (Nat.eq_dec k i) as [->|Hne]; [reflexivity|]. exfalso.
        rewrite nth_error_set_nth_other in Hz by exact Hne.
        unfold table_full in Hfull. rewrite forallb_forall in Hfull.
        specialize (Hfull z (nth_error_In _ _ Hz)). rewrite Hz0 in Hfull. discriminate.
      * exact (addjob_free (mkShell (set_nth (jobs s) i cleared_job)
                                    (wrap32 (maxjid (set_nth (jobs s) i cleared_job) + 1)))
                           p' st c k z Hp' Hf).
Qed.

(** The scenario: only job 100 in the table (slot 0), then it is deleted:
    slot 0 is cleared, pid 100 is gone and [maxjid] is 0. *)
Lemma deletejob_unique_pid_witness :
  let s1 := fst (addjob init_shell 100 BG sleep5) in
  (1 <= 100 /\ nth_error (jobs s1) 0 = Some (mkJob 100 1 BG sleep5) /\
   pid (mkJob 100 1 BG sleep5) = 100 /\
   List.length (filter (fun j => Z.eqb (pid j) 100) (jobs s1)) = 1%nat) /\
  jobs (fst (deletejob s1 100)) = set_nth (jobs s1) 0 cleared_job /\
  getjobpid (jobs (fst (deletejob s1 100))) 100 = None /\
  maxjid (jobs (fst (deletejob s1 100))) = 0.
Proof.
  intros s1.
  assert (H : 1 <= 100 /\ nth_error (jobs s1) 0 = Some (mkJob 100 1 BG sleep5) /\
              pid (mkJob 100 1 BG sleep5) = 100 /\
              List.length (filter (fun j => Z.eqb (pid j) 100) (jobs s1)) = 1%nat)
    by (split; [lia | split; [vm_compute; reflexivity | split; [reflexivity | vm_compute; reflexivity]]]).
  destruct H as [H1 [H2 [H3 H4]]].
  destruct (deletejob_unique_pid s1 100 0 (mkJob 100 1 BG sleep5) H1 H2 H3 H4)
    as [_ [Hcl [Hgone _]]].
  split; [split; [exact H1 | split; [exact H2 | split; [exact H3 | exact H4]]]|].
  split; [exact Hcl|]. split; [exact Hgone | vm_compute; reflexivity].
Defined.

(** ** C5: resuming with [bg] and [fg] *)

Lemma waitfg_returns_not_fg (p : Z) (env : list shell) :
  forall s s', waitfg p s env = Returns s' -> still_fg p s' = false.
Proof.
  induction env as [|e env IH]; intros s s' H; simpl in H.
  - destruct (still_fg p s) eqn:E; [discriminate|]. injection H as <-. exact E.
  - destruct (still_fg p s) eqn:E; [apply (IH e), H|]. injection H as <-. exact E.
Qed.


Lemma set_state_slot (s : shell) (i : nat) (j : job_t) (st : jstate) :
  nth_error (jobs s) i = Some j ->
  jobs (set_state s i st) = set_nth (jobs s) i (mkJob (pid j) (jid j) st (cmdline j)).
Proof. intros H. unfold set_state. rewrite H. reflexivity. Qed.




(** ** Further properties of the job table *)

Lemma find_slot_set_nth_fresh (f g : job_t -> bool) (l : list job_t) (i : nat) (x v : job_t) :
  find_slot g l = Some (i, x) -> (forall j, In j l -> f j = false) -> f v = true ->
  find_slot f (set_nth l i v) = Some (i, v).
Proof.
  revert i. induction l as [|y l IH]; intros i Hg Hf Hv; [discriminate|].
  simpl in Hg. destruct (g y) eqn:Ey.
  - injection Hg as <- _. simpl. rewrite Hv. reflexivity.
  - destruct (find_slot g l) as [[k z]|] eqn:E; [|discriminate].
    injection Hg as <- <-. simpl.
    rewrite (Hf y (or_introl eq_refl)).
    rewrite (IH k eq_refl (fun j Hj => Hf j (or_intror Hj)) Hv). reflexivity.
Qed.

Lemma not_full_free_slot (l : list job_t) :
  table_full l = false -> exists i x, find_slot (fun j => Z.eqb (pid j) 0) l = Some (i, x).
Proof.
  intros H. destruct (find_slot (fun j => Z.eqb (pid j) 0) l) as [[i x]|] eqn:E;
    [exists i, x; reflexivity|].
  rewrite find_slot_None in E. unfold table_full in H.
  assert (Ht : forallb (fun j => negb (Z.eqb (pid j) 0)) l = true)
    by (apply forallb_forall; intros j Hj; rewrite (E j Hj); reflexivity).
  congruence.
Qed.

(** [deletejob] of a pid [getjobpid] does not find (in particular [pid < 1])
    returns 0 and changes nothing, [nextjid] included. *)
Theorem deletejob_absent (s : shell) (p : Z) :
  getjobpid (jobs s) p = None -> deletejob s p = (s, false).
Proof.
  unfold getjobpid, deletejob. destruct (p <? 1); [reflexivity|].
  intros H. rewrite H. reflexivity.
Qed.

Lemma deletejob_absent_witness :
  getjobpid (jobs two_bg) 7 = None /\ deletejob two_bg 7 = (two_bg, false).
Proof. split; [vm_compute; reflexivity | apply deletejob_absent; vm_compute; reflexivity]. Defined.

(** Adding a pid not yet in a table with a free slot succeeds; afterwards
    [getjobpid] finds the new record (the given pid, state and command line
    and the job id [nextjid] had) and [pid2jid] returns that job id. *)
Theorem addjob_getjobpid_roundtrip (s : shell) (p : Z) (st : jstate) (c : string) :
  1 <= p -> getjobpid (jobs s) p = None -> table_full (jobs s) = false ->
  snd (addjob s p st c) = true /\
  (exists i, getjobpid (jobs (fst (addjob s p st c))) p = Some (i, mkJob p (nextjid s) st c)) /\
  pid2jid (jobs (fst (addjob s p st c))) p = nextjid s.
Proof.
  intros Hp Hnone Hfull.
  destruct (not_full_free_slot _ Hfull) as [i [x Hf]].
  rewrite (addjob_free s p st c i x Hp Hf). cbn [fst snd jobs].
  assert (Hp1 : (p <? 1) = false) by (apply Z.ltb_ge; lia).
  unfold getjobpid in Hnone. rewrite Hp1, find_slot_None in Hnone.
  assert (Hfind : find_slot (fun j => Z.eqb (pid j) p) (set_nth (jobs s) i (mkJob p (nextjid s) st c))
                  = Some (i, mkJob p (nextjid s) st c))
    by (apply (find_slot_set_nth_fresh _ (fun j => Z.eqb (pid j) 0) _ _ x); [exact Hf | exact Hnone | apply Z.eqb_refl]).
  split; [reflexivity|]. split.
  - exists i. unfold getjobpid. rewrite Hp1. exact Hfind.
  - unfold pid2jid. rewrite Hp1, Hfind. reflexivity.
Qed.

Lemma addjob_getjobpid_roundtrip_witness :
  (1 <= 102 /\ getjobpid (jobs two_bg) 102 = None /\ table_full (jobs two_bg) = false) /\
  pid2jid (jobs (fst (addjob two_bg 102 BG sleep5))) 102 = nextjid two_bg.
Proof.
  split; [split; [lia | split; vm_compute; reflexivity]|].
  apply (addjob_getjobpid_roundtrip two_bg 102 BG sleep5); [lia | vm_compute; reflexivity ..].
Defined.

(** While [nextjid] is above every job id present (it is after [initjobs] and
    after every [deletejob]), a successful add can be found again by its job
    id with [getjobjid]. *)
Theorem addjob_getjobjid_roundtrip (s : shell) (p : Z) (st : jstate) (c : string) :
  1 <= p -> 1 <= nextjid s -> maxjid (jobs s) < nextjid s -> table_full (jobs s) = false ->
  exists i, getjobjid (jobs (fst (addjob s p st c))) (nextjid s) = Some (i, mkJob p (nextjid s) st c).
Proof.
  intros Hp Hn Hm Hfull.
  destruct (not_full_free_slot _ Hfull) as [i [x Hf]].
  rewrite (addjob_free s p st c i x Hp Hf). cbn [fst jobs]. exists i.
  unfold getjobjid. destruct (nextjid s <? 1) eqn:E; [apply Z.ltb_lt in E; lia|].
  apply (find_slot_set_nth_fresh _ (fun j => Z.eqb (pid j) 0) _ _ x); [exact Hf| |apply Z.eqb_refl].
  intros j Hj. apply Z.eqb_neq.
  pose proof (max_fold_upper (jobs s) 0 j Hj). rewrite <- maxjid_fold in *. lia.
Qed.

Lemma addjob_getjobjid_roundtrip_witness :
  (1 <= 102 /\ 1 <= nextjid two_bg /\ maxjid (jobs two_bg) < nextjid two_bg /\
   table_full (jobs two_bg) = false) /\
  exists i, getjobjid (jobs (fst (addjob two_bg 102 BG sleep5))) (nextjid two_bg)
            = Some (i, mkJob 102 (nextjid two_bg) BG sleep5).
Proof.
  split; [split; [lia | split; [vm_compute; discriminate | split; vm_compute; reflexivity]]|].
  apply addjob_getjobjid_roundtrip;
    [lia | vm_compute; discriminate | vm_compute; reflexivity | vm_compute; reflexivity].
Defined.

(** Adding an FG job to a table with no FG job and a free slot makes
    [fgpid] return the new pid. *)
Theorem addjob_fg_fgpid (s : shell) (p : Z) (c : string) :
  1 <= p -> fg_count (jobs s) = 0%nat -> table_full (jobs s) = false ->
  fgpid (jobs (fst (addjob s p FG c))) = p.
Proof.
  intros Hp H0 Hfull.
  destruct (not_full_free_slot _ Hfull) as [i [x Hf]].
  rewrite (addjob_free s p FG c i x Hp Hf). cbn [fst jobs]. unfold fgpid.
  rewrite (find_slot_set_nth_fresh _ (fun j => Z.eqb (pid j) 0) _ _ x); [reflexivity | exact Hf | | reflexivity].
  apply find_slot_None, count_zero_none, H0.
Qed.

Lemma addjob_fg_fgpid_witness :
  (1 <= 102 /\ fg_count (jobs two_bg) = 0%nat /\ table_full (jobs two_bg) = false) /\
  fgpid (jobs (fst (addjob two_bg 102 FG sleep5))) = 102.
Proof.
  split; [split; [lia | split; vm_compute; reflexivity]|].
  apply addjob_fg_fgpid; [lia | vm_compute; reflexivity ..].
Defined.

(** ** Well-formedness of the job table *)

Lemma length_set_nth {A} (l : list A) (i : nat) (v : A) :
  List.length (set_nth l i v) = List.length l.
Proof.
  revert i. induction l as [|y l IH]; intros i; [destruct i; reflexivity|].
  destruct i; simpl; [reflexivity | rewrite IH; reflexivity].
Qed.

Lemma Forall_set_nth {A} (P : A -> Prop) (l : list A) (i : nat) (v : A) :
  Forall P l -> P v -> Forall P (set_nth l i v).
Proof.
  revert i. induction l as [|y l IH]; intros i Hl Hv; [destruct i; constructor|].
  inversion Hl as [|y' l' Hy Hl']; subst.
  destruct i; simpl; constructor; auto.
Qed.

Lemma table_wf_set_nth (l : list job_t) (i : nat) (v : job_t) :
  table_wf l -> slot_wf v -> table_wf (set_nth l i v).
Proof.
  intros [Hlen Hall] Hv. split; [rewrite length_set_nth; exact Hlen | apply Forall_set_nth; assumption].
Qed.

Lemma table_wf_addjob (s : shell) (p : Z) (st : jstate) (c : string) :
  table_wf (jobs s) -> st <> UNDEF -> table_wf (jobs (fst (addjob s p st c))).
Proof.
  intros Hwf Hst. destruct (addjob_cases s p st c) as [E | [i [x [_ [Hp E]]]]];
    rewrite E; [exact Hwf|].
  apply table_wf_set_nth; [exact Hwf | right; cbn; split; assumption].
Qed.

Lemma table_wf_deletejob (s : shell) (p : Z) :
  table_wf (jobs s) -> table_wf (jobs (fst (deletejob s p))).
Proof.
  intros Hwf. destruct (deletejob_cases s p) as [E | [i [x [_ [_ [_ E]]]]]];
    rewrite E; [exact Hwf|].
  apply table_wf_set_nth; [exact Hwf | left; reflexivity].
Qed.

(** Setting the state of a slot holding a job (positive pid) keeps the table
    well formed. *)
Lemma table_wf_set_state (s : shell) (i : nat) (j : job_t) (st : jstate) :
  table_wf (jobs s) -> nth_error (jobs s) i = Some j -> 1 <= pid j -> st <> UNDEF ->
  table_wf (jobs (set_state s i st)).
Proof.
  intros Hwf Hj Hp Hst. rewrite (set_state_slot _ _ _ _ Hj).
  apply table_wf_set_nth; [exact Hwf | right; cbn; split; assumption].
Qed.

Lemma table_wf_init : table_wf (jobs init_shell).
Proof.
  split; [reflexivity|]. apply Forall_forall. intros j Hj.
  apply repeat_spec in Hj. left. exact Hj.
Qed.

Lemma table_wf_run (s : shell) (ops : list op) :
  table_wf (jobs s) -> adds_defined ops = true -> table_wf (jobs (run s ops)).
Proof.
  unfold run. revert s.
  induction ops as [|o r IH]; intros s Hs Hd; [exact Hs|].
  cbn [fold_left]. simpl in Hd. apply andb_true_iff in Hd as [Ho Hd].
  apply IH; [|exact Hd].
  destruct o as [p st c | p]; simpl.
  - apply table_wf_addjob; [exact Hs|]. intros ->. simpl in Ho. discriminate.
  - apply table_wf_deletejob, Hs.
Qed.

(** From [initjobs], along every sequence of adds (with a defined state) and
    deletes, the table keeps its 16 slots and every slot is either cleared
    (pid 0, job id 0, UNDEF, empty command line) or holds a job with a
    positive pid and a defined state. *)
Theorem run_table_wf (ops : list op) :
  adds_defined ops = true -> table_wf (jobs (run init_shell ops)).
Proof. intros Hd. apply table_wf_run; [exact table_wf_init | exact Hd]. Qed.

Lemma run_table_wf_witness :
  adds_defined slide_ops = true /\ table_wf (jobs (run init_shell slide_ops)).
Proof. split; [vm_compute; reflexivity | apply run_table_wf; vm_compute; reflexivity]. Defined.

(** ** [listjobs] on a well-formed table *)

(** On a well-formed table, [listjobs] prints exactly the lines of the used
    slots in slot order, each with label Running, Foreground or Stopped:
    the internal-error branch is never taken. *)
Theorem listjobs_wf (l : list job_t) :
  Forall slot_wf l ->
  listjobs l = flat_map job_lines (filter slot_used l) /\
  Forall (fun j => state j <> UNDEF) (filter slot_used l).
Proof.
  unfold listjobs. generalize 0%nat.
  induction l as [|y l IH]; intros i Hall; [split; [reflexivity | constructor]|].
  inversion Hall as [|y' l' Hy Hl]; subst.
  destruct (IH (S i) Hl) as [Heq Hst].
  cbn [listjobs_from filter].
  assert (U : slot_used y = negb (Z.eqb (pid y) 0)) by reflexivity.
  destruct (Z.eqb (pid y) 0) eqn:E; cbn [negb] in U; rewrite U.
  - split; [exact Heq | exact Hst].
  - destruct Hy as [Hy | [Hp Hy]]; [subst y; discriminate|].
    split; [|constructor; assumption].
    cbn [flat_map]. rewrite <- Heq. unfold job_lines.
    destruct (state y); [contradiction | reflexivity ..].
Qed.

Lemma listjobs_wf_witness :
  Forall slot_wf (jobs two_bg) /\
  listjobs (jobs two_bg) = flat_map job_lines (filter slot_used (jobs two_bg)).
Proof.
  assert (H : Forall slot_wf (jobs two_bg))
    by (apply (table_wf_run init_shell
                 [OpAdd 100 BG sleep5; OpAdd 101 BG ("sleep 6 &" ++ nl)%string]);
        [exact table_wf_init | vm_compute; reflexivity]).
  split; [exact H | apply (listjobs_wf _ H)].
Defined.

(** ** The signal handlers on a well-formed table *)

Lemma slot_wf_in (l : list job_t) (j : job_t) :
  Forall slot_wf l -> In j l -> slot_wf j.
Proof. intros H Hin. rewrite Forall_forall in H. apply H, Hin. Qed.

Lemma slot_wf_fg_pid (j : job_t) : slot_wf j -> state j = FG -> 1 <= pid j.
Proof. intros [-> | [Hp _]] Hs; [discriminate | exact Hp]. Qed.

Lemma fgpid_wf (l : list job_t) :
  Forall slot_wf l ->
  fgpid l = 0 \/ exists j, In j l /\ state j = FG /\ 1 <= pid j /\ fgpid l = pid j.
Proof.
  intros Hwf. unfold fgpid.
  destruct (find_slot (fun j => jstate_eqb (state j) FG) l) as [[i j]|] eqn:E;
    [|left; reflexivity].
  right. apply find_slot_Some in E as [Hn Hf]. apply nth_error_In in Hn.
  assert (Hs : state j = FG) by (destruct (state j); try discriminate; reflexivity).
  exists j. split; [exact Hn | split; [exact Hs | split; [|reflexivity]]].
  apply (slot_wf_fg_pid j); [apply (slot_wf_in l); assumption | exact Hs].
Qed.

Lemma getjobpid_in (l : list job_t) (j : job_t) :
  In j l -> 1 <= pid j -> exists i j', getjobpid l (pid j) = Some (i, j').
Proof.
  intros Hin Hp. unfold getjobpid.
  destruct (pid j <? 1) eqn:L; [apply Z.ltb_lt in L; lia|].
  destruct (find_slot (fun x => pid x =? pid j) l) as [[i j']|] eqn:F; [eauto|].
  pose proof (proj1 (find_slot_None _ _) F j Hin) as H. cbn beta in H.
  rewrite Z.eqb_refl in H. discriminate.
Qed.

(** On a well-formed table [sigint_handler] never dereferences NULL, and
    every [kill] it makes sends the received signal to the process group of
    a foreground job with a positive pid (never to its own group, [kill(0)]). *)
Theorem sigint_handler_wf (kill_ok : bool) (sig : Z) (s : shell) :
  Forall slot_wf (jobs s) ->
  exists ev, sigint_handler kill_ok sig s = Some ev /\
    forall t g, In (Kill t g) ev ->
      g = sig /\ exists j, In j (jobs s) /\ state j = FG /\ 1 <= pid j /\ t = - pid j.
Proof.
  intros Hwf. unfold sigint_handler.
  destruct (fgpid_wf _ Hwf) as [E | [j [Hin [Hst [Hp E]]]]]; rewrite E.
  - eexists; split; [reflexivity|]. intros t g [H|[]]; discriminate.
  - destruct (Z.eqb_spec (pid j) 0) as [H0|_]; [lia|].
    destruct (getjobpid_in _ _ Hin Hp) as [i' [j' G]]. rewrite G.
    assert (Hfg : forall t g, Kill (- pid j) sig = Kill t g ->
              g = sig /\ exists j0, In j0 (jobs s) /\ state j0 = FG /\ 1 <= pid j0 /\ t = - pid j0).
    { intros t g H. injection H as Ht Hg. subst t g.
      split; [reflexivity | exists j; split; [exact Hin | split; [exact Hst | split; [exact Hp | reflexivity]]]]. }
    destruct kill_ok; eexists; (split; [reflexivity|]);
      intros t g Hk; (destruct Hk as [H|[H|[]]]; [apply Hfg, H | discriminate H]).
Qed.

Lemma sigint_handler_wf_witness :
  Forall slot_wf (jobs fg_one) /\
  exists ev, sigint_handler true 2 fg_one = Some ev /\
    forall t g, In (Kill t g) ev ->
      g = 2 /\ exists j, In j (jobs fg_one) /\ state j = FG /\ 1 <= pid j /\ t = - pid j.
Proof.
  assert (H : Forall slot_wf (jobs fg_one))
    by (apply (table_wf_run init_shell fg_ops); [exact table_wf_init | vm_compute; reflexivity]).
  split; [exact H | apply (sigint_handler_wf true 2 fg_one H)].
Defined.

(** On a well-formed table every [kill] of [sigtstp_handler] sends the
    received signal to the process group of a foreground job with a positive
    pid. *)
Theorem sigtstp_handler_wf (kill_ok : bool) (sig : Z) (s : shell) :
  Forall slot_wf (jobs s) ->
  forall t g, In (Kill t g) (sigtstp_handler kill_ok sig s) ->
    g = sig /\ exists j, In j (jobs s) /\ state j = FG /\ 1 <= pid j /\ t = - pid j.
Proof.
  intros Hwf t g. unfold sigtstp_handler.
  destruct (fgpid_wf _ Hwf) as [E | [j [Hin [Hst [Hp E]]]]]; rewrite E.
  - intros [H|[]]; discriminate.
  - destruct (Z.eqb_spec (pid j) 0) as [H0|_]; [lia|].
    intros Hk. assert (H : Kill (- pid j) sig = Kill t g)
      by (destruct kill_ok; destruct Hk as [H|Hk]; try exact H;
          [contradiction | destruct Hk as [H|[]]; discriminate H]).
    injection H as Ht Hg. subst t g.
    split; [reflexivity | exists j; split; [exact Hin | split; [exact Hst | split; [exact Hp | reflexivity]]]].
Qed.

Lemma sigtstp_handler_wf_witness :
  Forall slot_wf (jobs fg_one) /\
  (forall t g, In (Kill t g) (sigtstp_handler false 20 fg_one) ->
    g = 20 /\ exists j, In j (jobs fg_one) /\ state j = FG /\ 1 <= pid j /\ t = - pid j).
Proof.
  assert (H : Forall slot_wf (jobs fg_one))
    by (apply (table_wf_run init_shell fg_ops); [exact table_wf_init | vm_compute; reflexivity]).
  split; [exact H | apply (sigtstp_handler_wf false 20 fg_one H)].
Defined.

(** ** Handlers and builtins keep the table well formed *)

Lemma getjobpid_Some (l : list job_t) (p : Z) (i : nat) (j : job_t) :
  getjobpid l p = Some (i, j) -> nth_error l i = Some j /\ pid j = p /\ 1 <= p.
Proof.
  unfold getjobpid. destruct (p <? 1) eqn:L; [discriminate|]. apply Z.ltb_ge in L.
  intros F. apply find_slot_Some in F as [Hn Hf]. apply Z.eqb_eq in Hf. auto.
Qed.

Lemma getjobjid_Some (l : list job_t) (id : Z) (i : nat) (j : job_t) :
  getjobjid l id = Some (i, j) -> nth_error l i = Some j /\ jid j = id /\ 1 <= id.
Proof.
  unfold getjobjid. destruct (id <? 1) eqn:L; [discriminate|]. apply Z.ltb_ge in L.
  intros F. apply find_slot_Some in F as [Hn Hf]. apply Z.eqb_eq in Hf. auto.
Qed.

Lemma lookup_wf (s : shell) (is_jid : bool) (id : Z) (i : nat) (j : job_t) :
  Forall slot_wf (jobs s) -> lookup s is_jid id = Some (i, j) ->
  nth_error (jobs s) i = Some j /\ 1 <= pid j.
Proof.
  intros Hwf. unfold lookup. destruct is_jid; intros L.
  - apply getjobjid_Some in L as [Hn [Hj Hid]]. split; [exact Hn|].
    destruct (slot_wf_in _ _ Hwf (nth_error_In _ _ Hn)) as [-> | [Hp _]];
      [cbn in Hj; lia | exact Hp].
  - apply getjobpid_Some in L as [Hn [Hp Hid]]. split; [exact Hn | lia].
Qed.

Lemma waitfg_shell (p : Z) (env : list shell) :
  forall s, match waitfg p s env with
            | Returns s' | Blocked s' => s' = s \/ In s' env
            end.
Proof.
  induction env as [|e env IH]; intros s; simpl.
  - destruct (still_fg p s); left; reflexivity.
  - destruct (still_fg p s); [|left; reflexivity].
    specialize (IH e). destruct (waitfg p e env) as [s'|s'];
      (destruct IH as [->|H]; [right; left; reflexivity | right; right; exact H]).
Qed.

(** Whichever child it reaps, when [sigchld_handler] returns it leaves a
    well-formed table well formed. *)
Theorem sigchld_handler_wf (reapable : list (Z * wstatus)) (s : shell) :
  table_wf (jobs s) ->
  match sigchld_handler reapable s with
  | HReturn s' _ _ => table_wf (jobs s')
  | _ => True
  end.
Proof.
  intros Hwf. destruct reapable as [|[p st] rest]; simpl; [exact Hwf|].
  destruct st as [c|sig|sig|]; try (apply table_wf_deletejob; exact Hwf); [|exact I].
  destruct (getjobpid (jobs s) p) as [[i j]|] eqn:G; [|exact I].
  apply getjobpid_Some in G as [Hn [Hp H1]].
  apply (table_wf_set_state s i j); [exact Hwf | exact Hn | lia | discriminate].
Qed.

Lemma sigchld_handler_wf_witness :
  table_wf (jobs fg_one) /\
  table_wf (jobs (match sigchld_handler [(200, WStopped 20)] fg_one with
                  | HReturn s' _ _ => s' | _ => fg_one end)).
Proof.
  assert (H : table_wf (jobs fg_one))
    by (apply (table_wf_run init_shell fg_ops); [exact table_wf_init | vm_compute; reflexivity]).
  split; [exact H|].
  exact (sigchld_handler_wf [(200, WStopped 20)] fg_one H).
Defined.

(** [bg]/[fg] keep a well-formed table well formed (given that the globals
    seen after each [pause()] are), and each [kill] they make sends SIGCONT
    to the process group of a job of the table with a positive pid. *)
Theorem do_bgfg_wf (argv : list string) (s : shell) (env : list shell) :
  table_wf (jobs s) -> Forall (fun e => table_wf (jobs e)) env ->
  (match snd (do_bgfg argv s env) with
   | Returns s' | Blocked s' => table_wf (jobs s')
   end) /\
  forall t g, In (Kill t g) (fst (do_bgfg argv s env)) ->
    g = SIGCONT /\ exists j, In j (jobs s) /\ 1 <= pid j /\ t = - pid j.
Proof.
  intros Hwf Henv.
  assert (Hnok : forall m t g, ~ In (Kill t g) [Stderr m]) by (intros m t g [H|[]]; discriminate).
  destruct argv as [|cmd [|arg [|x r]]];
    try (split; [exact Hwf | intros t g H; exfalso; exact (Hnok _ _ _ H)]).
  unfold do_bgfg.
  destruct (parse_id arg) as [[is_jid id]|];
    [|split; [exact Hwf | intros t g H; exfalso; exact (Hnok _ _ _ H)]].
  destruct (lookup s is_jid id) as [[i j]|] eqn:L;
    [|split; [exact Hwf | intros t g H; exfalso; exact (Hnok _ _ _ H)]].
  destruct (lookup_wf s is_jid id i j (proj2 Hwf) L) as [Hn Hp].
  assert (Hk : forall t g, Kill (- pid j) SIGCONT = Kill t g ->
                 g = SIGCONT /\ exists j0, In j0 (jobs s) /\ 1 <= pid j0 /\ t = - pid j0).
  { intros t g H. injection H as Ht Hg. subst t g.
    split; [reflexivity | exists j; split; [exact (nth_error_In _ _ Hn) | split; [exact Hp | reflexivity]]]. }
  destruct (String.eqb cmd "bg"); simpl; split.
  - apply (table_wf_set_state s i j); [exact Hwf | exact Hn | exact Hp | discriminate].
  - intros t g [H|[H|[]]]; [apply Hk, H | discriminate H].
  - assert (Hs : table_wf (jobs (set_state s i FG)))
      by (apply (table_wf_set_state s i j); [exact Hwf | exact Hn | exact Hp | discriminate]).
    pose proof (waitfg_shell (pid j) env (set_state s i FG)) as W.
    destruct (waitfg (pid j) (set_state s i FG) env) as [s'|s'];
      (destruct W as [->|Hin]; [exact Hs | rewrite Forall_forall in Henv; exact (Henv _ Hin)]).
  - intros t g [H|[]]. apply Hk, H.
Qed.

Lemma do_bgfg_wf_witness :
  (table_wf (jobs two_bg) /\ Forall (fun e => table_wf (jobs e)) ([] : list shell)) /\
  (match snd (do_bgfg ["fg"; "%2"]%string two_bg []) with
   | Returns s' | Blocked s' => table_wf (jobs s')
   end).
Proof.
  assert (H : table_wf (jobs two_bg))
    by (apply (table_wf_run init_shell
                 [OpAdd 100 BG sleep5; OpAdd 101 BG ("sleep 6 &" ++ nl)%string]);
        [exact table_wf_init | vm_compute; reflexivity]).
  split; [split; [exact H | constructor]|].
  exact (proj1 (do_bgfg_wf ["fg"; "%2"]%string two_bg [] H (Forall_nil _))).
Defined.

(** ** [eval] *)

Lemma addjob_fresh_find (s : shell) (p : Z) (st : jstate) (c : string) (i : nat) (x : job_t) :
  find_slot (fun j => Z.eqb (pid j) 0) (jobs s) = Some (i, x) ->
  getjobpid (jobs s) p = None -> 1 <= p ->
  find_slot (fun j => Z.eqb (pid j) p) (set_nth (jobs s) i (mkJob p (nextjid s) st c))
  = Some (i, mkJob p (nextjid s) st c).
Proof.
  intros Hf Hnone Hp.
  assert (Hp1 : (p <? 1) = false) by (apply Z.ltb_ge; lia).
  unfold getjobpid in Hnone. rewrite Hp1, find_slot_None in Hnone.
  apply (find_slot_set_nth_fresh _ (fun j => Z.eqb (pid j) 0) _ _ x);
    [exact Hf | exact Hnone | apply Z.eqb_refl].
Qed.

Lemma full_no_free_slot (l : list job_t) :
  table_full l = true -> find_slot (fun j => Z.eqb (pid j) 0) l = None.
Proof.
  intros H. apply find_slot_None. intros j Hj. unfold table_full in H.
  rewrite forallb_forall in H. specialize (H j Hj).
  destruct (Z.eqb (pid j) 0); [discriminate | reflexivity].
Qed.

Lemma addjob_no_slot (s : shell) (p : Z) (st : jstate) (c : string) :
  p < 1 \/ table_full (jobs s) = true -> addjob s p st c = (s, false).
Proof.
  intros H. unfold addjob. destruct (p <? 1) eqn:E; [reflexivity|].
  apply Z.ltb_ge in E. destruct H as [H|H]; [lia|]. rewrite (full_no_free_slot _ H). reflexivity.
Qed.

Lemma parseline_spaces (n : nat) : parseline (spaces n ++ nl)%string = Some (mkParse [] None 1).
Proof.
  assert (Hne : exists c t, (spaces n ++ nl)%string = String c t) by (destruct n; eexists _, _; reflexivity).
  destruct Hne as [c [t Ht]].
  unfold parseline. rewrite Ht, <- Ht, replace_last_spaces, skip_spaces_spaces. reflexivity.
Qed.

(** A line of blanks reaches [builtin_cmd] with [argv[0] == NULL], which
    [strcmp] dereferences: [eval] never gets past its builtin test. *)
Theorem eval_blank_line_null (n : nat) (s : shell) (fork_ret : Z) (blocked : bool)
        (env : list shell) :
  eval (spaces n ++ nl)%string s fork_ret blocked env = Some ENullDeref.
Proof. unfold eval. rewrite parseline_spaces. reflexivity. Qed.

(** Launching a background job: for a command that is not a builtin and ends
    in [&], a fresh child pid and a table with a free slot, [eval] adds the job
    as Running with job id [nextjid], prints ["[jid] (pid) cmdline"], and
    returns with SIGCHLD unblocked, whatever the mask on entry. *)
Theorem eval_bg_launch (cmd : string) (r : parse_result) (s : shell) (fork_ret : Z)
        (blocked : bool) (env : list shell) :
  parseline cmd = Some r -> builtin_cmd (pr_argv r) s env = BNotBuiltin -> pr_ret r <> 0 ->
  1 <= fork_ret -> getjobpid (jobs s) fork_ret = None -> table_full (jobs s) = false ->
  eval cmd s fork_ret blocked env =
    Some (EDone [Stdout ("[" ++ show_Z (nextjid s) ++ "] (" ++ show_Z fork_ret ++ ") " ++ cmd)%string]
                (Returns (fst (addjob s fork_ret BG cmd))) false) /\
  exists i, getjobpid (jobs (fst (addjob s fork_ret BG cmd))) fork_ret
            = Some (i, mkJob fork_ret (nextjid s) BG cmd).
Proof.
  intros Hparse Hb Hret Hp Hnone Hfull.
  destruct (not_full_free_slot _ Hfull) as [i [x Hf]].
  pose proof (addjob_fresh_find s fork_ret BG cmd i x Hf Hnone Hp) as Hfind.
  assert (Hp1 : (fork_ret <? 1) = false) by (apply Z.ltb_ge; lia).
  unfold eval. rewrite Hparse, Hb.
  destruct (Z.eqb_spec fork_ret (-1)) as [E|_]; [lia|].
  destruct (Z.eqb_spec (pr_ret r) 0) as [E|_]; [contradiction|]. cbn [negb].
  rewrite (addjob_free s fork_ret BG cmd i x Hp Hf). cbn [fst jobs negb].
  split.
  - unfold pid2jid. rewrite Hp1, Hfind. reflexivity.
  - exists i. unfold getjobpid. rewrite Hp1. exact Hfind.
Qed.

Lemma eval_bg_launch_witness :
  (parseline sleep5 = Some (mkParse ["sleep"; "5"]%string (Some 2) 1) /\
   builtin_cmd ["sleep"; "5"]%string two_bg [] = BNotBuiltin /\ 1 <> 0 /\ 1 <= 102 /\
   getjobpid (jobs two_bg) 102 = None /\ table_full (jobs two_bg) = false) /\
  eval sleep5 two_bg 102 true [] =
    Some (EDone [Stdout ("[" ++ show_Z (nextjid two_bg) ++ "] (" ++ show_Z 102 ++ ") " ++ sleep5)%string]
                (Returns (fst (addjob two_bg 102 BG sleep5))) false).
Proof.
  split; [repeat split; try lia; vm_compute; reflexivity|].
  apply (eval_bg_launch sleep5 (mkParse ["sleep"; "5"]%string (Some 2) 1) two_bg 102 true []);
    [vm_compute; reflexivity | vm_compute; reflexivity | discriminate | lia
    | vm_compute; reflexivity | vm_compute; reflexivity].
Defined.

(** Launching a foreground job: for a command that is not a builtin and has
    no [&], a fresh child pid and a table with a free slot, [eval] adds the job
    in state FG, prints nothing, unblocks SIGCHLD and waits: the wait starts
    with the job in the foreground, and [eval] returns only once it no longer
    is. *)
Theorem eval_fg_launch (cmd : string) (r : parse_result) (s : shell) (fork_ret : Z)
        (blocked : bool) (env : list shell) :
  parseline cmd = Some r -> builtin_cmd (pr_argv r) s env = BNotBuiltin -> pr_ret r = 0 ->
  1 <= fork_ret -> getjobpid (jobs s) fork_ret = None -> table_full (jobs s) = false ->
  eval cmd s fork_ret blocked env =
    Some (EDone [] (waitfg fork_ret (fst (addjob s fork_ret FG cmd)) env) false) /\
  still_fg fork_ret (fst (addjob s fork_ret FG cmd)) = true /\
  (forall s', waitfg fork_ret (fst (addjob s fork_ret FG cmd)) env = Returns s' ->
              still_fg fork_ret s' = false).
Proof.
  intros Hparse Hb Hret Hp Hnone Hfull.
  destruct (not_full_free_slot _ Hfull) as [i [x Hf]].
  pose proof (addjob_fresh_find s fork_ret FG cmd i x Hf Hnone Hp) as Hfind.
  assert (Hp1 : (fork_ret <? 1) = false) by (apply Z.ltb_ge; lia).
  split; [|split; [|apply waitfg_returns_not_fg]].
  - unfold eval. rewrite Hparse, Hb, Hret.
    destruct (Z.eqb_spec fork_ret (-1)) as [E|_]; [lia|]. cbn [Z.eqb negb].
    rewrite (addjob_free s fork_ret FG cmd i x Hp Hf). reflexivity.
  - rewrite (addjob_free s fork_ret FG cmd i x Hp Hf). unfold still_fg, getjobpid.
    cbn [fst jobs]. rewrite Hp1, Hfind. reflexivity.
Qed.

Lemma eval_fg_launch_witness :
  (parseline ("sleep 9" ++ nl)%string = Some (mkParse ["sleep"; "9"]%string (Some 2) 0) /\
   builtin_cmd ["sleep"; "9"]%string two_bg [] = BNotBuiltin /\ 1 <= 200 /\
   getjobpid (jobs two_bg) 200 = None /\ table_full (jobs two_bg) = false) /\
  still_fg 200 (fst (addjob two_bg 200 FG ("sleep 9" ++ nl)%string)) = true.
Proof.
  split; [repeat split; try lia; vm_compute; reflexivity|].
  apply (eval_fg_launch ("sleep 9" ++ nl)%string (mkParse ["sleep"; "9"]%string (Some 2) 0)
           two_bg 200 false []);
    [vm_compute; reflexivity | vm_compute; reflexivity | reflexivity | lia
    | vm_compute; reflexivity | vm_compute; reflexivity].
Defined.

(** When [fork] fails, or [addjob] refuses the child (pid below 1 or table
    full), [eval] leaves the job table and [nextjid] unchanged and writes
    only to stderr. After a failed [fork] the signal mask is as on entry;
    after a refused [addjob] SIGCHLD stays blocked, since that path returns
    before the [sigprocmask(SIG_SETMASK, &prev, NULL)]. *)
Theorem eval_launch_error (cmd : string) (r : parse_result) (s : shell) (fork_ret : Z)
        (blocked : bool) (env : list shell) :
  parseline cmd = Some r -> builtin_cmd (pr_argv r) s env = BNotBuiltin ->
  fork_ret = -1 \/ fork_ret < 1 \/ table_full (jobs s) = true ->
  exists out b, eval cmd s fork_ret blocked env = Some (EDone out (Returns s) b) /\
    out <> [] /\ (forall e, In e out -> exists m, e = Stderr m) /\
    (fork_ret = -1 -> b = blocked) /\ (fork_ret <> -1 -> b = true).
Proof.
  intros Hparse Hb Herr. unfold eval. rewrite Hparse, Hb.
  destruct (Z.eqb_spec fork_ret (-1)) as [E|E].
  - eexists _, _. split; [reflexivity|]. split; [discriminate|].
    split; [intros e [<-|[]]; eexists; reflexivity|]. split; [reflexivity | contradiction].
  - assert (Ha : forall st, addjob s fork_ret st cmd = (s, false))
      by (intros st; apply addjob_no_slot; destruct Herr as [H|[H|H]]; [lia | left; exact H | right; exact H]).
    rewrite Ha. cbn [negb].
    eexists _, _. split; [reflexivity|].
    split; [destruct (addjob_out s fork_ret); discriminate|].
    split; [|split; [contradiction | reflexivity]].
    intros e He. apply in_app_or in He as [He|[<-|[]]]; [|eexists; reflexivity].
    unfold addjob_out in He.
    destruct (fork_ret <? 1); [destruct He as [<-|[]]; eexists; reflexivity|].
    destruct (find_slot (fun j => Z.eqb (pid j) 0) (jobs s));
      [destruct He | destruct He as [<-|[]]; eexists; reflexivity].
Qed.

Lemma eval_launch_error_witness :
  (parseline sleep5 = Some (mkParse ["sleep"; "5"]%string (Some 2) 1) /\
   builtin_cmd ["sleep"; "5"]%string full16 [] = BNotBuiltin /\
   (200 = -1 \/ 200 < 1 \/ table_full (jobs full16) = true)) /\
  exists out, eval sleep5 full16 200 false [] = Some (EDone out (Returns full16) true).
Proof.
  split; [split; [vm_compute; reflexivity | split; [vm_compute; reflexivity | right; right; vm_compute; reflexivity]]|].
  destruct (eval_launch_error sleep5 (mkParse ["sleep"; "5"]%string (Some 2) 1) full16 200 false [])
    as [out [b [Hev [_ [_ [_ Hb]]]]]];
    [vm_compute; reflexivity | vm_compute; reflexivity | right; right; vm_compute; reflexivity|].
  exists out. rewrite Hev, Hb; [reflexivity | discriminate].
Defined.

(** ** [parseline] on plain words *)

Lemma replace_last_app_nl (c : ascii) (x : string) :
  replace_last c (x ++ nl)%string = (x ++ String c EmptyString)%string.
Proof.
  induction x as [|a x IH]; [reflexivity|].
  cbn [append]. remember (x ++ nl)%string as y eqn:Hy.
  destruct y as [|b y']; [destruct x; discriminate|].
  change (replace_last c (String a (String b y')))
    with (String a (replace_last c (String b y'))).
  rewrite IH. reflexivity.
Qed.

Lemma str_app_assoc (x y z : string) : (x ++ (y ++ z))%string = ((x ++ y) ++ z)%string.
Proof. induction x as [|a x IH]; simpl; [reflexivity | rewrite IH; reflexivity]. Qed.

Lemma join_words_sp (ws : list string) :
  ws <> [] -> (join_words ws ++ String " "%char EmptyString)%string = words_sp ws.
Proof.
  induction ws as [|w r IH]; intros H; [contradiction|].
  destruct r as [|w' r']; [reflexivity|].
  change (join_words (w :: w' :: r'))
    with (w ++ String " "%char (join_words (w' :: r')))%string.
  change (words_sp (w :: w' :: r'))
    with (w ++ String " "%char (words_sp (w' :: r')))%string.
  rewrite <- str_app_assoc. cbn [append]. rewrite IH; [reflexivity | discriminate].
Qed.

Lemma substring_0_full (t : string) (m : nat) :
  (String.length t <= m)%nat -> substring 0 m t = t.
Proof.
  revert m. induction t as [|c t IH]; intros m H; destruct m; simpl in *;
    try reflexivity; [lia|]. rewrite IH; [reflexivity | lia].
Qed.

Lemma substring_prefix (w t : string) :
  substring 0 (String.length w) (w ++ t)%string = w.
Proof. induction w as [|c w IH]; [destruct t; reflexivity | simpl; rewrite IH; reflexivity]. Qed.

Lemma length_app_str (x y : string) :
  String.length (x ++ y)%string = (String.length x + String.length y)%nat.
Proof. induction x as [|a x IH]; simpl; [reflexivity | rewrite IH; reflexivity]. Qed.

Lemma substring_after (w t : string) (c : ascii) (m : nat) :
  (String.length t <= m)%nat -> substring (S (String.length w)) m (w ++ String c t)%string = t.
Proof.
  intros Hm. induction w as [|a w IH].
  - simpl. apply substring_0_full. exact Hm.
  - cbn [String.length append]. cbn [substring]. exact IH.
Qed.

Lemma index_of_app (c : ascii) (w t : string) :
  index_of c w = None -> index_of c (w ++ String c t)%string = Some (String.length w).
Proof.
  induction w as [|a w IH]; intros H; simpl in *.
  - rewrite Ascii.eqb_refl. reflexivity.
  - destruct (Ascii.eqb a c); [discriminate|].
    destruct (index_of c w); [discriminate|]. rewrite IH; reflexivity.
Qed.

Lemma skip_spaces_words (ws : list string) :
  forallb good_word ws = true -> skip_spaces (words_sp ws) = words_sp ws.
Proof.
  destruct ws as [|w r]; [reflexivity|]. simpl. intros H.
  apply andb_true_iff in H as [Hw _].
  destruct w as [|q w']; [discriminate|]. simpl.
  destruct (Ascii.eqb q " "%char) eqn:E; [|reflexivity].
  apply Ascii.eqb_eq in E. subst q. simpl in Hw. discriminate.
Qed.

Lemma tokens_words (ws : list string) (fuel : nat) :
  forallb good_word ws = true -> (String.length (words_sp ws) < fuel)%nat ->
  tokens fuel (words_sp ws) = ws.
Proof.
  revert fuel. induction ws as [|w r IH]; intros fuel Hg Hl.
  - destruct fuel; reflexivity.
  - destruct fuel as [|f]; [lia|].
    simpl in Hg. apply andb_true_iff in Hg as [Hw Hr].
    destruct w as [|q w']; [discriminate|].
    unfold good_word in Hw. apply andb_true_iff in Hw as [Hq Hi].
    destruct (index_of " "%char (String q w')) eqn:Hn; [discriminate|].
    assert (Hq' : Ascii.eqb q "'"%char = false)
      by (destruct (Ascii.eqb q "'"%char); [discriminate | reflexivity]).
    cbn [tokens words_sp].
    rewrite (index_of_app _ _ _ Hn).
    change (String q w' ++ String " "%char (words_sp r))%string
      with (String q (w' ++ String " "%char (words_sp r)))%string.
    cbv iota. rewrite Hq'. cbv iota.
    change (String q (w' ++ String " "%char (words_sp r)))%string
      with (String q w' ++ String " "%char (words_sp r))%string.
    rewrite substring_prefix.
    rewrite substring_after by (rewrite length_app_str; simpl; lia).
    rewrite (skip_spaces_words r Hr).
    rewrite IH; [reflexivity | exact Hr|].
    cbn [words_sp] in Hl. rewrite length_app_str in Hl. simpl in Hl. lia.
Qed.

Lemma parseline_words_gen (ws : list string) :
  ws <> [] -> forallb good_word ws = true ->
  parseline (join_words ws ++ nl)%string =
    Some (let bg := amp_word (last ws EmptyString) in
          let argv' := if bg then removelast ws else ws in
          mkParse argv' (Some (Z.of_nat (List.length argv'))) (if bg then 1 else 0)).
Proof.
  intros Hne Hg.
  assert (Hc : exists c t, (join_words ws ++ nl)%string = String c t)
    by (destruct (join_words ws); eexists _, _; reflexivity).
  destruct Hc as [c [t Ht]].
  unfold parseline. rewrite Ht, <- Ht, replace_last_app_nl, (join_words_sp ws Hne),
    (skip_spaces_words ws Hg), (tokens_words ws _ Hg (Nat.lt_succ_diag_r _)).
  destruct ws as [|w r]; [contradiction|]. reflexivity.
Qed.

(** A line of plain words (nonempty, unquoted, without spaces), separated by
    single spaces, parses back to those words; unless the last word starts
    with ['&'], the job is a foreground one ([parseline] returns 0). *)
Theorem parseline_words (ws : list string) :
  ws <> [] -> forallb good_word ws = true -> amp_word (last ws EmptyString) = false ->
  parseline (join_words ws ++ nl)%string =
    Some (mkParse ws (Some (Z.of_nat (List.length ws))) 0).
Proof.
  intros Hne Hg Ha. rewrite (parseline_words_gen ws Hne Hg). cbv zeta. rewrite Ha. reflexivity.
Qed.

Lemma parseline_words_witness :
  (["ls"; "-l"; "/tmp"]%string <> [] /\ forallb good_word ["ls"; "-l"; "/tmp"]%string = true /\
   amp_word (last ["ls"; "-l"; "/tmp"]%string EmptyString) = false) /\
  parseline (join_words ["ls"; "-l"; "/tmp"]%string ++ nl)%string =
    Some (mkParse ["ls"; "-l"; "/tmp"]%string (Some 3) 0).
Proof.
  split; [split; [discriminate | split; vm_compute; reflexivity]|].
  apply (parseline_words ["ls"; "-l"; "/tmp"]%string);
    [discriminate | vm_compute; reflexivity | vm_compute; reflexivity].
Defined.

(** Appending a separate word ["&"] to plain words makes a background
    request: [parseline] returns 1 and drops the ["&"] from [argv]. *)
Theorem parseline_words_amp (ws : list string) :
  forallb good_word ws = true ->
  parseline (join_words (ws ++ ["&"%string]) ++ nl)%string =
    Some (mkParse ws (Some (Z.of_nat (List.length ws))) 1).
Proof.
  intros Hg.
  assert (Hne : ws ++ ["&"%string] <> []) by (destruct ws; discriminate).
  assert (Hg' : forallb good_word (ws ++ ["&"%string]) = true)
    by (rewrite forallb_app, Hg; reflexivity).
  rewrite (parseline_words_gen _ Hne Hg'). rewrite last_last, removelast_last. reflexivity.
Qed.

Lemma parseline_words_amp_witness :
  forallb good_word ["sleep"; "5"]%string = true /\
  parseline (join_words (["sleep"; "5"]%string ++ ["&"%string]) ++ nl)%string =
    Some (mkParse ["sleep"; "5"]%string (Some 2) 1).
Proof.
  split; [vm_compute; reflexivity|].
  apply (parseline_words_amp ["sleep"; "5"]%string). vm_compute; reflexivity.
Defined.
